(** * Wiki_scraper: the image download pipeline

    A shallow embedding of [image_downloader.py] (thread-pool version),
    [async_image_downloader.py] (asyncio version) and [scraper.py], with
    the properties of the scrape / fetch / extract / cache pipeline proved
    over it.

    Conventions of the model.
    - A Python [str] is a Rocq [string], one [ascii] per code point, so the
      workers are modelled on the code points U+0000..U+00FF.  The
      character classes below ([str.isspace], [str.lower], the regex class
      [\w]) follow CPython's Unicode database on that range.  The
      sanitizing expression is modelled a second time over all code
      points, with the database as a parameter (module [Wide]).
    - An entry is the Python dict the scraper builds: a finite map from
      keys to [str] or [None].
    - The cache directory is the list [os.listdir] returns, in listing
      order, on a case-sensitive POSIX file system; besides the listed
      names it holds ["."] and [".."].  Whether a file can be created under a given name
      is up to the file system.
    - The network is an oracle from URLs to responses; every GET a worker
      issues is recorded in its trace.  [BeautifulSoup] is an oracle from
      page texts to trees.
    - [urllib.parse], [os.path] and [posixpath] are modelled after the
      sources of CPython 3.11. *)

From Stdlib Require Import ZArith NArith Ascii String List Bool Lia.
From stdpp Require Import gmap strings list.

Set Warnings "-register-all".

Open Scope string_scope.

(** ** Python string primitives *)

Module PyStr.

Definition code (c : ascii) : N := N_of_ascii c.

Definition in_range (lo hi : N) (c : ascii) : bool :=
  ((lo <=? code c) && (code c <=? hi))%N.

(** [str.isspace] per character: TAB..CR, FS..US, SPACE, NEL, NBSP. *)
Definition is_space (c : ascii) : bool :=
  in_range 9 13 c || in_range 28 32 c || (code c =? 133)%N || (code c =? 160)%N.

(** Characters [str.lower] changes: A-Z, and the Latin-1 capitals. *)
Definition is_upper (c : ascii) : bool :=
  in_range 65 90 c || in_range 192 214 c || in_range 216 222 c.

Definition char_lower (c : ascii) : ascii :=
  if is_upper c then ascii_of_N (code c + 32) else c.

(** [\d] : decimal digits. *)
Definition is_digit (c : ascii) : bool := in_range 48 57 c.

(** [str.isalnum] per character. *)
Definition is_alnum (c : ascii) : bool :=
  is_digit c || in_range 65 90 c || in_range 97 122 c
  || (code c =? 170)%N || (code c =? 178)%N || (code c =? 179)%N
  || (code c =? 181)%N || (code c =? 185)%N || (code c =? 186)%N
  || in_range 188 190 c
  || in_range 192 214 c || in_range 216 246 c || in_range 248 255 c.

(** [\w] : alphanumerics and the underscore. *)
Definition is_word (c : ascii) : bool := is_alnum c || Ascii.eqb c "_".

Fixpoint str_map (f : ascii -> ascii) (s : string) : string :=
  match s with
  | EmptyString => EmptyString
  | String c r => String (f c) (str_map f r)
  end.

Fixpoint str_filter (p : ascii -> bool) (s : string) : string :=
  match s with
  | EmptyString => EmptyString
  | String c r => if p c then String c (str_filter p r) else str_filter p r
  end.

Fixpoint str_all (p : ascii -> bool) (s : string) : bool :=
  match s with
  | EmptyString => true
  | String c r => p c && str_all p r
  end.

Fixpoint str_count (p : ascii -> bool) (s : string) : nat :=
  match s with
  | EmptyString => 0
  | String c r => (if p c then 1 else 0) + str_count p r
  end.


(** [s.lower()] *)
Definition lower (s : string) : string := str_map char_lower s.

Fixpoint lstrip (s : string) : string :=
  match s with
  | EmptyString => EmptyString
  | String c r => if is_space c then lstrip r else s
  end.

Fixpoint rstrip (s : string) : string :=
  match s with
  | EmptyString => EmptyString
  | String c r =>
      match rstrip r with
      | EmptyString => if is_space c then EmptyString else String c EmptyString
      | r' => String c r'
      end
  end.

(** [s.strip()] *)
Definition strip (s : string) : string := rstrip (lstrip s).

(** [s.replace(a, b)] for one-character [a] and [b]. *)
Definition replace_char (a b : ascii) (s : string) : string :=
  str_map (fun c => if Ascii.eqb c a then b else c) s.

(** [s.startswith(p)] *)
Fixpoint startswith (s p : string) : bool :=
  match p, s with
  | EmptyString, _ => true
  | String _ _, EmptyString => false
  | String a p', String b s' => Ascii.eqb a b && startswith s' p'
  end.

(** Truth value of a [str]. *)
Definition nonempty (s : string) : bool :=
  match s with EmptyString => false | _ => true end.

End PyStr.

Import PyStr.

(** ** The Filename Codec *)

(** The class of the pattern [[^\w\d_-]] complemented: what [re.sub]
    keeps. *)
Definition keep_char (c : ascii) : bool :=
  is_word c || is_digit c || Ascii.eqb c "_" || Ascii.eqb c "-".

(** [re.sub(r"[^\w\d_-]", "", s)] *)
Definition re_sub_unsafe (s : string) : string := str_filter keep_char s.

(** [safe_name]: the expression
    [re.sub(r"[^\w\d_-]", "", name.lower().strip().replace(" ", "_"))]
    of both workers, which is also the first two lines of
    [sanitize_filename]. *)
Definition safe_name (name : string) : string :=
  re_sub_unsafe (replace_char " " "_" (strip (lower name))).

(** The characters the sanitized prefix may hold: lower-case alphanumerics,
    underscore, hyphen. *)
Definition permitted (c : ascii) : bool :=
  (is_alnum c && negb (is_upper c)) || Ascii.eqb c "_" || Ascii.eqb c "-".



(** ** The sanitizing expression over all code points

    [str.lower], [str.strip] and the classes of [re] read the Unicode
    database of the runtime.  Here a [str] is the list of its code points
    and the database is a parameter. *)

Module Wide.

#[local] Open Scope list_scope.

Definition ustr : Type := list N.

Record ucd : Type := mkUcd {
  u_isspace : N -> bool;     (* [str.isspace] of a character *)
  u_isalnum : N -> bool;     (* [str.isalnum] of a character *)
  u_isdecimal : N -> bool;   (* [str.isdecimal] of a character *)
  u_isupper : N -> bool;     (* [str.isupper] of a character *)
  u_lower : ustr -> ustr     (* [str.lower] *)
}.

(** [\w]: alphanumerics and the underscore; [\d]: decimal digits. *)
Definition is_word (U : ucd) (c : N) : bool := u_isalnum U c || (c =? 95)%N.

(** What [re.sub(r"[^\w\d_-]", "", s)] keeps. *)
Definition keep (U : ucd) (c : N) : bool :=
  is_word U c || u_isdecimal U c || (c =? 95)%N || (c =? 45)%N.

Fixpoint lstrip (U : ucd) (s : ustr) : ustr :=
  match s with
  | [] => []
  | c :: r => if u_isspace U c then lstrip U r else s
  end.

Fixpoint rstrip (U : ucd) (s : ustr) : ustr :=
  match s with
  | [] => []
  | c :: r =>
      match rstrip U r with
      | [] => if u_isspace U c then [] else [c]
      | r' => c :: r'
      end
  end.

Definition strip (U : ucd) (s : ustr) : ustr := rstrip U (lstrip U s).

(** [s.replace(" ", "_")] *)
Definition replace_space (s : ustr) : ustr :=
  List.map (fun c => if (c =? 32)%N then 95%N else c) s.

(** [re.sub(r"[^\w\d_-]", "", name.lower().strip().replace(" ", "_"))] *)
Definition safe_name (U : ucd) (name : ustr) : ustr :=
  List.filter (keep U) (replace_space (strip U (u_lower U name))).

(** A kept character that [str.lower] leaves as it is. *)
Definition settled (U : ucd) (c : N) : Prop :=
  keep U c = true /\ u_lower U [c] = [c].

(** The permitted set as the specification words it: lower-case
    alphanumerics, underscore, hyphen. *)
Definition spec_permitted (U : ucd) (c : N) : bool :=
  (u_isalnum U c && negb (u_isupper U c)) || (c =? 95)%N || (c =? 45)%N.

(** What the expression relies on from the database: a kept character is
    not whitespace, the space is; [str.lower] works character by
    character on characters it leaves alone, and what it produces it
    leaves alone. *)
Record regular (U : ucd) : Prop := mkRegular {
  kept_not_space : forall c, keep U c = true -> u_isspace U c = false;
  space_is_space : u_isspace U 32 = true;
  lower_settles :
    forall s c, List.In c (u_lower U s) -> keep U c = true ->
                u_lower U [c] = [c];
  lower_pointwise :
    forall t, (forall c, List.In c t -> u_lower U [c] = [c]) ->
              u_lower U t = t;
  lower_underscore : u_lower U [95%N] = [95%N]
}.

(** [str.lower] of one character of U+0000..U+00FF. *)
Definition latin1_lower (c : N) : N :=
  if (c <? 256)%N then N_of_ascii (char_lower (ascii_of_N c)) else c.

(** The database of CPython on U+0000..U+00FF (the classes of [PyStr])
    and at U+03D2, GREEK UPSILON WITH HOOK SYMBOL: an upper-case letter
    that has no lower-case form.  The other code points are left without
    a class; no example below uses them. *)
Definition sample : ucd :=
  mkUcd
    (fun c => (c <? 256)%N && PyStr.is_space (ascii_of_N c))
    (fun c => if (c <? 256)%N then PyStr.is_alnum (ascii_of_N c)
              else (c =? 978)%N)
    (fun c => (c <? 256)%N && PyStr.is_digit (ascii_of_N c))
    (fun c => if (c <? 256)%N then PyStr.is_upper (ascii_of_N c)
              else (c =? 978)%N)
    (List.map latin1_lower).

(** The code points of a string of the narrow model. *)
Definition codes (s : string) : ustr :=
  List.map N_of_ascii (list_ascii_of_string s).

End Wide.

(** ** Library path and URL helpers

    [os.path.join], [os.path.splitext] and [urllib.parse.urlparse] are
    Python library code; they are modelled here after CPython's posixpath,
    genericpath and urllib.parse sources. *)

Module PyPath.

Fixpoint contains_char (c : ascii) (s : string) : bool :=
  match s with
  | EmptyString => false
  | String x r => Ascii.eqb x c || contains_char c r
  end.

Fixpoint endswith_char (c : ascii) (s : string) : bool :=
  match s with
  | EmptyString => false
  | String x EmptyString => Ascii.eqb x c
  | String _ r => endswith_char c r
  end.

(** [os.path.join(a, b)] on POSIX. *)
Definition join (a b : string) : string :=
  if startswith b "/" then b
  else if negb (nonempty a) || endswith_char "/" a then a +:+ b
  else a +:+ "/" +:+ b.

(** The part of [p] after its last ["/"]. *)
Fixpoint basename (p : string) : string :=
  match p with
  | EmptyString => EmptyString
  | String x r =>
      if contains_char "/" r then basename r
      else if Ascii.eqb x "/" then r else p
  end.

(** Splits at the last ["."]: what precedes it, and the rest from it. *)
Fixpoint rsplit_dot (s : string) : option (string * string) :=
  match s with
  | EmptyString => None
  | String x r =>
      match rsplit_dot r with
      | Some (pre, ext) => Some (String x pre, ext)
      | None => if Ascii.eqb x "." then Some (EmptyString, s) else None
      end
  end.

(** [os.path.splitext(p)[-1]]: leading dots of the base name do not start
    an extension. *)
Definition splitext_ext (p : string) : string :=
  match rsplit_dot (basename p) with
  | Some (pre, ext) => if str_all (Ascii.eqb ".") pre then "" else ext
  | None => ""
  end.

(** [s] up to the first character satisfying [p], and the rest from it. *)
Fixpoint break_at (p : ascii -> bool) (s : string) : string * string :=
  match s with
  | EmptyString => (EmptyString, EmptyString)
  | String x r =>
      if p x then (EmptyString, s)
      else let '(a, b) := break_at p r in (String x a, b)
  end.

Definition is_alpha_ascii (c : ascii) : bool :=
  in_range 65 90 c || in_range 97 122 c.

Definition is_scheme_char (c : ascii) : bool :=
  is_alpha_ascii c || is_digit c
  || Ascii.eqb c "+" || Ascii.eqb c "-" || Ascii.eqb c ".".

(** The scheme of a URL (lower-cased) and what follows its colon. *)
Definition split_scheme (url : string) : string * string :=
  match break_at (Ascii.eqb ":") url with
  | (String c0 pre, String _ rest) =>
      if is_alpha_ascii c0 && str_all is_scheme_char pre
      then (lower (String c0 pre), rest)
      else ("", url)
  | _ => ("", url)
  end.

Definition uses_params : list string :=
  ["" ; "ftp" ; "hdl" ; "prospero" ; "http" ; "imap" ; "https" ; "shttp" ;
   "rtsp" ; "rtspu" ; "sip" ; "sips" ; "mms" ; "sftp" ; "tel"].

(** [_splitparams]: the path without the parameters of its last segment. *)
Fixpoint drop_params (path : string) : string :=
  match path with
  | EmptyString => EmptyString
  | String x r =>
      if contains_char "/" r then String x (drop_params r)
      else if Ascii.eqb x "/" then String x (fst (break_at (Ascii.eqb ";") r))
      else fst (break_at (Ascii.eqb ";") path)
  end.

(** The characters of [_WHATWG_C0_CONTROL_OR_SPACE]. *)
Definition is_c0_or_space (c : ascii) : bool := (code c <=? 32)%N.

(** [url.lstrip(_WHATWG_C0_CONTROL_OR_SPACE)] *)
Fixpoint lstrip_c0 (s : string) : string :=
  match s with
  | EmptyString => EmptyString
  | String c r => if is_c0_or_space c then lstrip_c0 r else s
  end.

(** The characters of [_UNSAFE_URL_BYTES_TO_REMOVE]: tab, CR, LF. *)
Definition is_unsafe_byte (c : ascii) : bool :=
  ((code c =? 9) || (code c =? 13) || (code c =? 10))%N.

(** The first lines of [urlsplit]: leading controls and spaces are
    stripped, then every tab, CR and LF is removed. *)
Definition clean_url (url : string) : string :=
  str_filter (fun c => negb (is_unsafe_byte c)) (lstrip_c0 url).

Definition is_delim (c : ascii) : bool :=
  Ascii.eqb c "/" || Ascii.eqb c "?" || Ascii.eqb c "#".

(** [urlsplit] up to the network location: the scheme, the netloc
    ([_splitnetloc]) and what follows it. *)
Definition split_netloc (url : string) : string * string * string :=
  let '(scheme, rest) := split_scheme (clean_url url) in
  if startswith rest "//"
  then let '(netloc, rest) :=
         break_at is_delim (substring 2 (String.length rest - 2) rest) in
       (scheme, netloc, rest)
  else (scheme, "", rest).

(** [urlparse(url).netloc] *)
Definition url_netloc (url : string) : string := snd (fst (split_netloc url)).

(** [urlparse(url).path], when [urlparse] returns. *)
Definition url_path (url : string) : string :=
  let '(scheme, _, rest) := split_netloc url in
  let rest := fst (break_at (Ascii.eqb "#") rest) in
  let rest := fst (break_at (Ascii.eqb "?") rest) in
  if existsb (String.eqb scheme) uses_params && contains_char ";" rest
  then drop_params rest else rest.

(** The first check of [urlsplit] on the netloc: one square bracket
    without the other is an "Invalid IPv6 URL". *)
Definition unbalanced_brackets (netloc : string) : bool :=
  xorb (contains_char "[" netloc) (contains_char "]" netloc).

(** A netloc with both brackets goes through the check of its bracketed
    host. *)
Definition bracketed (netloc : string) : bool :=
  contains_char "[" netloc && contains_char "]" netloc.

End PyPath.

(** What [sanitize_filename(name, url)] returns; [urlparse] raises
    [ValueError] on some URLs, see [call_sanitize_filename]. *)
Definition sanitize_filename (name url : string) : string :=
  let name := safe_name name in
  let ext := PyPath.splitext_ext (PyPath.url_path url) in
  name +:+ (if nonempty ext then ext else ".jpg").

(** ** Parsed markup

    The tree [BeautifulSoup(html, "html.parser")] builds.  [classes] is the
    token list bs4 keeps for the multi-valued [class] attribute; [attrs]
    holds the other attributes (a Python dict: one binding per key). *)

Inductive node : Type :=
  | NText (text : string)
  | NElem (tag : string) (classes : list string)
          (attrs : list (string * string)) (children : list node).

Definition soup : Type := list node.

Module Bs4.

Definition children (n : node) : list node :=
  match n with NElem _ _ _ ch => ch | NText _ => [] end.

Definition name_is (t : string) (n : node) : bool :=
  match n with NElem t' _ _ _ => String.eqb t' t | NText _ => false end.

Fixpoint assoc (k : string) (l : list (string * string)) : option string :=
  match l with
  | [] => None
  | (k', v) :: r => if String.eqb k' k then Some v else assoc k r
  end.

(** [tag.get(k)] *)
Definition get (n : node) (k : string) : option string :=
  match n with NElem _ _ a _ => assoc k a | NText _ => None end.

Definition node_classes (n : node) : list string :=
  match n with NElem _ cl _ _ => cl | NText _ => [] end.

Fixpoint join_space (l : list string) : string :=
  match l with
  | [] => ""
  | [x] => x
  | x :: r => x +:+ " " +:+ join_space r
  end.

(** [sub in s] *)
Fixpoint str_in (sub s : string) : bool :=
  startswith s sub
  || match s with EmptyString => false | String _ r => str_in sub r end.

(** A [class_] filter: bs4 tries each class token, then the tokens joined
    by one space. *)
Definition class_matches (p : string -> bool) (n : node) : bool :=
  existsb p (node_classes n) || p (join_space (node_classes n)).

(** First node of the forest satisfying [p], in document order. *)
Fixpoint find_from (p : node -> bool) (n : node) : option node :=
  if p n then Some n
  else match n with
       | NText _ => None
       | NElem _ _ _ ch =>
           (fix scan (l : list node) : option node :=
              match l with
              | [] => None
              | x :: r =>
                  match find_from p x with
                  | Some y => Some y
                  | None => scan r
                  end
              end) ch
       end.

Fixpoint find_forest (p : node -> bool) (l : list node) : option node :=
  match l with
  | [] => None
  | x :: r =>
      match find_from p x with
      | Some y => Some y
      | None => find_forest p r
      end
  end.

(** [tag.find(...)]: among the descendants of [tag]. *)
Definition find (p : node -> bool) (n : node) : option node :=
  find_forest p (children n).

End Bs4.

(** ** The Image Locator *)

(** [lambda c: c and "infobox biota" in c] *)
Definition infobox_class (c : string) : bool :=
  nonempty c && Bs4.str_in "infobox biota" c.

(** [soup.find("table", class_=lambda ...)] *)
Definition is_infobox (n : node) : bool :=
  Bs4.name_is "table" n && Bs4.class_matches infobox_class n.

(** [find("img")] *)
Definition is_img (n : node) : bool := Bs4.name_is "img" n.

(** [find("img", src=True)]: the attribute is present. *)
Definition is_img_with_src (n : node) : bool :=
  is_img n && match Bs4.get n "src" with Some _ => true | None => false end.

(** [find(attrs={"typeof": v})] *)
Definition has_typeof (v : string) (n : node) : bool :=
  match n with
  | NElem _ _ _ _ =>
      match Bs4.get n "typeof" with Some t => String.eqb t v | None => false end
  | NText _ => false
  end.

(** [find("img", class_="mw-file-element")] *)
Definition is_file_element (n : node) : bool :=
  is_img n && Bs4.class_matches (String.eqb "mw-file-element") n.

(** Truth value of [img.get("src")]. *)
Definition src_truthy (n : node) : bool :=
  match Bs4.get n "src" with Some s => nonempty s | None => false end.

(** [img_tag["src"]] *)
Definition src_of (n : node) : string := default "" (Bs4.get n "src").

(** [WikiImageDownloader.find_first_content_image] *)
Definition find_first_content_image (doc : soup) : option node :=
  let thumb_img :=
    match Bs4.find_forest (has_typeof "mw:File/Thumb") doc with
    | Some thumb_tag => Bs4.find is_img_with_src thumb_tag
    | None => None
    end in
  match thumb_img with
  | Some img => Some img
  | None =>
      let file_img :=
        match Bs4.find_forest (has_typeof "mw:File") doc with
        | Some file_tag => Bs4.find is_img_with_src file_tag
        | None => None
        end in
      match file_img with
      | Some img => Some img
      | None =>
          match Bs4.find_forest is_file_element doc with
          | Some img => if src_truthy img then Some img else None
          | None => None
          end
      end
  end.

(** The URL normalization both versions apply to the [src] found. *)
Definition normalize_src (src : string) : string :=
  if startswith src "//" then "https:" +:+ src
  else if startswith src "/" then "https://en.wikipedia.org" +:+ src
  else src.

(** The normalization as the specification words it, for a source page
    served by [host]. *)
Definition spec_normalize_src (host src : string) : string :=
  if startswith src "//" then "https:" +:+ src
  else if startswith src "/" then "https://" +:+ host +:+ src
  else src.

Definition usable (img_tag : option node) : bool :=
  match img_tag with Some img => src_truthy img | None => false end.

(** The image tag [download_image_from_entry] settles on: the infobox
    image, or else what [find_first_content_image] returns. *)
Definition sync_img_tag (doc : soup) : option node :=
  let infobox := Bs4.find_forest is_infobox doc in
  let img_tag :=
    match infobox with Some t => Bs4.find is_img t | None => None end in
  if negb (usable img_tag) then find_first_content_image doc else img_tag.

(** The locator of the thread-pool version: the tag above, checked for a
    usable [src], normalized. *)
Definition sync_locate (doc : soup) : option string :=
  let img_tag := sync_img_tag doc in
  if negb (usable img_tag) then None
  else Some (normalize_src (from_option src_of "" img_tag)).

(** [AsyncWikiImageDownloader.extract_image_url] *)
Definition extract_image_url (doc : soup) : option string :=
  let infobox := Bs4.find_forest is_infobox doc in
  let img_tag :=
    match infobox with
    | Some t => Bs4.find is_img t
    | None => Bs4.find_forest is_file_element doc
    end in
  if usable img_tag then Some (normalize_src (from_option src_of "" img_tag))
  else None.

(** The four extraction rules of the specification, each giving the image
    it selects when it applies. *)
Definition rule_infobox (doc : soup) : option node :=
  match Bs4.find_forest is_infobox doc with
  | Some t => match Bs4.find is_img t with
              | Some img => if src_truthy img then Some img else None
              | None => None
              end
  | None => None
  end.

Definition rule_container (kind : string) (doc : soup) : option node :=
  match Bs4.find_forest (has_typeof kind) doc with
  | Some t => Bs4.find is_img_with_src t
  | None => None
  end.

Definition rule_file_element (doc : soup) : option node :=
  match Bs4.find_forest is_file_element doc with
  | Some img => if src_truthy img then Some img else None
  | None => None
  end.

(** First hit of a list of rules tried in order. *)
Fixpoint first_hit (rules : list (soup -> option node)) (doc : soup)
  : option node :=
  match rules with
  | [] => None
  | r :: rest =>
      match r doc with
      | Some img => Some img
      | None => first_hit rest doc
      end
  end.

Definition spec_rules : list (soup -> option node) :=
  [ rule_infobox ; rule_container "mw:File/Thumb" ;
    rule_container "mw:File" ; rule_file_element ].

(** ** Entries, the environment and worker state *)

(** A value of an entry dict: [Union[str, None]]. *)
Inductive pyval : Type :=
  | PyNone
  | PyStr (s : string).

#[global] Instance pyval_eq_dec : EqDecision pyval.
Proof. solve_decision. Defined.

Abbreviation entry := (gmap string pyval).

(** [d.get(k)] and [d.get(k, default)] *)
Definition dict_get (k : string) (d : entry) : pyval :=
  default PyNone (d !! k).

Definition dict_get_default (k : string) (dflt : pyval) (d : entry) : pyval :=
  default dflt (d !! k).

Definition truthy (v : pyval) : bool :=
  match v with
  | PyNone => false
  | PyStr s => nonempty s
  end.

(** An entity carries a source URL when [entry.get("wiki_url")] is true. *)
Definition has_url (e : entry) : bool := truthy (dict_get "wiki_url" e).

Inductive exn : Type :=
  | AttributeError
  | ValueError (url : string)          (* [urlparse] rejects the URL *)
  | IsADirectoryError (file : string)  (* [open] on a directory *)
  | OSError (file : string)            (* [open] refused by the file system *)
  | RequestException (url : string)
  | HTTPError (url : string) (status : Z)
  | StreamError (url : string).

Inductive level : Type := INFO | WARNING | ERROR.

(** One constructor per [logger] call of the two modules. *)
Inductive message : Type :=
  | NoWikiUrl (name : pyval)
  | AlreadyExists (name file : string)
  | NoImageFound (name : string)
  | Downloading (name url : string)
  | Downloaded (name filename : string)
  | ErrorDownloading (name : string) (e : exn)
  | FetchStatus (url : string) (status : Z)
  | FetchException (url : string)
  | ImageStatus (url : string) (status : Z)
  | ImageException (url : string)
  | CachedPostScrape (name : string)
  | Saved (name filename : string).

Inductive event : Type :=
  | Get (url : string)
  | Log (lv : level) (msg : message).

Definition is_get (ev : event) : bool :=
  match ev with Get _ => true | Log _ _ => false end.

(** Number of network calls in a trace. *)
Definition network_calls (tr : list event) : nat :=
  length (filter (fun ev => is_get ev = true) tr).

Record response : Type := mkResponse {
  status : Z;
  text : string;
  (** whether the body can be read to its end *)
  body_ok : bool
}.

Inductive reply : Type :=
  | Unreachable            (* timeout or transport failure: the GET raises *)
  | Reply (r : response).

Record world : Type := mkWorld {
  http_get : string -> reply;
  (** [BeautifulSoup(text, "html.parser")] *)
  parse_html : string -> soup;
  (** files other workers add to the cache directory while this worker
      waits for its page *)
  racing_files : list string;
  (** whether [urlsplit] accepts the bracketed host of a netloc
      ([_check_bracketed_netloc], which parses an IP literal; releases
      without that check accept every host) *)
  bracketed_host_ok : string -> bool;
  (** whether the file system lets [open(path, "wb")] create or truncate
      a file of this name in the cache directory (it refuses a name that
      is too long, a name taken by a directory, a full or read-only
      directory) *)
  can_create : string -> bool
}.

(** Whether [urlparse(url)] raises [ValueError].  The remaining check of
    [urlsplit], [_checknetloc], rejects a netloc whose NFKC form holds one
    of [/?#@:] that the netloc does not; no string over U+0000..U+00FF has
    such a form. *)
Definition urlparse_raises (w : world) (url : string) : bool :=
  let netloc := PyPath.url_netloc url in
  PyPath.unbalanced_brackets netloc
  || (PyPath.bracketed netloc && negb (bracketed_host_ok w netloc)).

Record state : Type := mkState {
  st_entry : entry;
  st_dir : list string;
  st_trace : list event
}.

(** ** A state and exception monad for the workers *)

Inductive res (A : Type) : Type :=
  | Ok (a : A)
  | Raise (e : exn).
Arguments Ok {A} a.
Arguments Raise {A} e.

Definition M (A : Type) : Type := state -> state * res A.

Definition ret {A} (a : A) : M A := fun s => (s, Ok a).

Definition bind {A B} (m : M A) (f : A -> M B) : M B :=
  fun s => match m s with
           | (s', Ok a) => f a s'
           | (s', Raise e) => (s', Raise e)
           end.

Definition raise {A} (e : exn) : M A := fun s => (s, Raise e).

(** [try: m except Exception as e: h e] *)
Definition try_except {A} (m : M A) (h : exn -> M A) : M A :=
  fun s => match m s with
           | (s', Raise e) => h e s'
           | r => r
           end.

Declare Scope prog_scope.
Delimit Scope prog_scope with prog.
Notation "'let!' x ':=' m 'in' k" := (bind m (fun x => k))
  (at level 10, x name, m at level 100, k at level 200) : prog_scope.
Notation "m '>>' k" := (bind m (fun _ => k))
  (at level 100, k at level 200, right associativity) : prog_scope.

Open Scope prog_scope.

Definition emit (ev : event) : M unit :=
  fun s => (mkState (st_entry s) (st_dir s) (st_trace s ++ [ev]), Ok tt).

Definition log (lv : level) (msg : message) : M unit := emit (Log lv msg).

Definition get_entry : M entry := fun s => (s, Ok (st_entry s)).

(** [entry[k] = v] *)
Definition set_item (k : string) (v : pyval) : M unit :=
  fun s => (mkState (<[k := v]> (st_entry s)) (st_dir s) (st_trace s), Ok tt).

(** [os.listdir(self.image_dir)] *)
Definition listdir : M (list string) := fun s => (s, Ok (st_dir s)).

Definition dir_add (f : string) (dir : list string) : list string :=
  if existsb (String.eqb f) dir then dir else dir ++ [f].

(** The names every directory holds and [os.listdir] leaves out. *)
Definition is_dot_name (f : string) : bool :=
  String.eqb f "." || String.eqb f "..".

(** [open(path, "wb")] for the name [f] in the cache directory: the
    directory itself cannot be opened for writing; a file the file system
    accepts is created when absent. *)
Definition open_wb (w : world) (f : string) : M unit :=
  if is_dot_name f then raise (IsADirectoryError f)
  else if can_create w f
  then fun s => (mkState (st_entry s) (dir_add f (st_dir s)) (st_trace s), Ok tt)
  else raise (OSError f).

(** [os.path.exists(path)] for a path into the cache directory
    [image_dir] whose listing is [dir]: the path of a listed name, or of
    ["."] or [".."]. *)
Definition exists_in (image_dir : string) (dir : list string) (path : string)
  : bool :=
  existsb (fun f => String.eqb (PyPath.join image_dir f) path)
    ("." :: ".." :: dir).

Arguments exists_in : simpl never.
Arguments is_dot_name : simpl never.
Arguments urlparse_raises : simpl never.

(** [os.path.exists(path)] for a path into the cache directory. *)
Definition path_exists (image_dir path : string) : M bool :=
  fun s => (s, Ok (exists_in image_dir (st_dir s) path)).

(** The cache directory once the other workers have added their files. *)
Definition dir_after_others (w : world) (dir : list string) : list string :=
  fold_left (fun d f => dir_add f d) (racing_files w) dir.

(** What the other workers did to the cache directory meanwhile. *)
Definition others_write (w : world) : M unit :=
  fun s => (mkState (st_entry s) (dir_after_others w (st_dir s)) (st_trace s),
            Ok tt).

(** [name.lower()] needs a [str]. *)
Definition as_str (v : pyval) : M string :=
  match v with
  | PyStr s => ret s
  | PyNone => raise AttributeError
  end.

(** The call [sanitize_filename(name, url)]: the [ValueError] of
    [urlparse] goes to the caller. *)
Definition call_sanitize_filename (w : world) (name url : string) : M string :=
  if urlparse_raises w url then raise (ValueError url)
  else ret (sanitize_filename name url).

(** ** The thread-pool worker: [image_downloader.py] *)

(** [requests.get(url, ...)] *)
Definition requests_get (w : world) (url : string) : M response :=
  emit (Get url) >>
  match http_get w url with
  | Unreachable => raise (RequestException url)
  | Reply r => ret r
  end.

(** Client and server error codes. *)
Definition bad_status (r : response) : bool :=
  ((400 <=? status r) && (status r <? 600))%Z.

(** [res.raise_for_status()] *)
Definition raise_for_status (url : string) (r : response) : M unit :=
  if bad_status r then raise (HTTPError url (status r)) else ret tt.

(** The [for chunk in r.iter_content(...)] loop. *)
Definition iter_content (url : string) (r : response) : M unit :=
  if body_ok r then ret tt else raise (StreamError url).

(** The body of the [try] block of [download_image_from_entry]. *)
Definition sync_try_block (w : world) (image_dir name url : string) : M unit :=
  let! res := requests_get w url in
  raise_for_status url res >>
  others_write w >>
  let doc := parse_html w (text res) in
  match sync_locate doc with
  | None => log ERROR (NoImageFound name)
  | Some img_url =>
      let! filename := call_sanitize_filename w name img_url in
      let local_path := PyPath.join image_dir filename in
      log INFO (Downloading name img_url) >>
      let! r := requests_get w img_url in
      raise_for_status img_url r >>
      open_wb w filename >>
      iter_content img_url r >>
      set_item "local_image" (PyStr local_path) >>
      log INFO (Downloaded name filename)
  end.

(** [WikiImageDownloader.download_image_from_entry] *)
Definition download_image_from_entry (w : world) (image_dir : string) : M unit :=
  let! entry := get_entry in
  let url := dict_get "wiki_url" entry in
  let name := dict_get_default "name" (PyStr "unknown") entry in
  match url with
  | PyStr (String _ _ as url) =>
      let! name := as_str name in
      let safe := safe_name name in
      let! files := listdir in
      let existing_files := List.filter (fun f => startswith f safe) files in
      match existing_files with
      | f :: _ =>
          set_item "local_image" (PyStr (PyPath.join image_dir f)) >>
          log INFO (AlreadyExists name f)
      | [] =>
          try_except (sync_try_block w image_dir name url)
            (fun e => log ERROR (ErrorDownloading name e))
      end
  | _ => log ERROR (NoWikiUrl name)
  end.

(** ** The asyncio worker: [async_image_downloader.py] *)

(** [AsyncWikiImageDownloader.fetch_html] *)
Definition fetch_html (w : world) (url : string) : M (option string) :=
  emit (Get url) >>
  match http_get w url with
  | Unreachable => log ERROR (FetchException url) >> ret None
  | Reply r =>
      if (status r =? 200)%Z then ret (Some (text r))
      else log WARNING (FetchStatus url (status r)) >> ret None
  end.

(** [AsyncWikiImageDownloader.download_image], writing file [f] of the
    cache directory; its [try] covers the GET, [aiofiles.open] and the
    chunk loop. *)
Definition download_image (w : world) (url f : string) : M bool :=
  emit (Get url) >>
  match http_get w url with
  | Unreachable => log ERROR (ImageException url) >> ret false
  | Reply r =>
      if negb (status r =? 200)%Z
      then log WARNING (ImageStatus url (status r)) >> ret false
      else
        try_except
          (open_wb w f >> iter_content url r >> ret true)
          (fun _ => log ERROR (ImageException url) >> ret false)
  end.

(** The body of the [async with self.semaphore] block of
    [process_entry]. *)
Definition async_section (w : world) (image_dir name url : string) : M unit :=
  let! html := fetch_html w url in
  others_write w >>
  match html with
  | Some (String _ _ as html) =>
      let doc := parse_html w html in
      match extract_image_url doc with
      | Some (String _ _ as img_url) =>
          let! filename := call_sanitize_filename w name img_url in
          let local_path := PyPath.join image_dir filename in
          let! present := path_exists image_dir local_path in
          if present then
            set_item "local_image" (PyStr local_path) >>
            log INFO (CachedPostScrape name)
          else
            log INFO (Downloading name img_url) >>
            let! saved := download_image w img_url filename in
            if saved then
              set_item "local_image" (PyStr local_path) >>
              log INFO (Saved name filename)
            else ret tt
      | _ => log WARNING (NoImageFound name)
      end
  | _ => ret tt
  end.

(** [AsyncWikiImageDownloader.process_entry] *)
Definition process_entry (w : world) (image_dir : string) : M unit :=
  let! entry := get_entry in
  let url := dict_get "wiki_url" entry in
  let name := dict_get_default "name" (PyStr "unknown") entry in
  match url with
  | PyStr (String _ _ as url) =>
      let! name := as_str name in
      let safe := safe_name name in
      let! files := listdir in
      let existing_files := List.filter (fun f => startswith f safe) files in
      match existing_files with
      | f :: _ =>
          set_item "local_image" (PyStr (PyPath.join image_dir f)) >>
          log INFO (AlreadyExists name f)
      | [] => async_section w image_dir name url
      end
  | _ => log WARNING (NoWikiUrl name)
  end.

(** Running a worker on an entry, a directory listing and an empty trace. *)
Definition run_worker (worker : M unit) (e : entry) (dir : list string)
  : state * res unit :=
  worker (mkState e dir []).

(** The two versions of the pipeline. *)
Inductive version : Type := ThreadPool | Asyncio.

Definition worker (v : version) (w : world) (image_dir : string) : M unit :=
  match v with
  | ThreadPool => download_image_from_entry w image_dir
  | Asyncio => process_entry w image_dir
  end.

(** What a worker does after a cache miss. *)
Definition after_miss (v : version) (w : world) (image_dir name url : string)
  : M unit :=
  match v with
  | ThreadPool =>
      try_except (sync_try_block w image_dir name url)
        (fun e => log ERROR (ErrorDownloading name e))
  | Asyncio => async_section w image_dir name url
  end.

(** [entry.get("name", "unknown")] *)
Definition entry_name (e : entry) : pyval :=
  dict_get_default "name" (PyStr "unknown") e.

(** The cache probe: the files of the listing whose name starts with the
    sanitized prefix. *)
Definition probe (dir : list string) (name : string) : list string :=
  List.filter (fun f => startswith f (safe_name name)) dir.

(** ** What a worker meets after a cache miss, read off the environment *)

(** The page a worker gets hold of, if any. *)
Definition page_of (v : version) (w : world) (url : string) : option string :=
  match http_get w url with
  | Unreachable => None
  | Reply r =>
      match v with
      | ThreadPool => if bad_status r then None else Some (text r)
      | Asyncio =>
          if (status r =? 200)%Z && nonempty (text r) then Some (text r) else None
      end
  end.

(** The image reference a worker finds in a page, if any. *)
Definition located (v : version) (doc : soup) : option string :=
  match v with
  | ThreadPool => sync_locate doc
  | Asyncio =>
      match extract_image_url doc with
      | Some (String _ _ as img_url) => Some img_url
      | _ => None
      end
  end.

(** Whether the asyncio worker finds its destination present when it
    looks again. *)
Definition rechecked (v : version) (w : world) (image_dir : string)
    (dir : list string) (name img_url : string) : bool :=
  match v with
  | ThreadPool => false
  | Asyncio =>
      exists_in image_dir (dir_after_others w dir)
        (PyPath.join image_dir (sanitize_filename name img_url))
  end.

(** The log records with which a worker reports that the entity has its
    image: cache hit, download, destination found on the second look. *)
Definition reports_success (ev : event) : bool :=
  match ev with
  | Log INFO (AlreadyExists _ _) => true
  | Log INFO (Downloaded _ _) => true
  | Log INFO (Saved _ _) => true
  | Log INFO (CachedPostScrape _) => true
  | _ => false
  end.

(** ** The batch operation *)

(** The mapping from category to entries, in insertion order. *)
Definition mapping : Type := list (string * list entry).

(** [[entry for sublist in mapping.values() for entry in sublist]] *)
Definition all_entries (m : mapping) : list entry :=
  concat (map snd m).

(** The entries [WikiImageDownloader.download_images] hands to
    [executor.map]. *)
Definition sync_scheduled (m : mapping) : list entry := all_entries m.

(** The entries [AsyncWikiImageDownloader.download_images] creates a task
    for. *)
Definition async_scheduled (m : mapping) : list entry :=
  List.filter has_url (all_entries m).

(** The scheduling the specification words: only entities carrying a
    source URL. *)
Definition spec_scheduled (m : mapping) : list entry :=
  List.filter has_url (all_entries m).

(** ** The Concurrency Orchestrator

    The batch as an interleaving of worker steps.  A worker is cut at its
    suspension points; the scheduler picks which worker moves next and
    which branch the environment makes it take.  The two versions differ in
    the table of moves and in the positions that hold a unit of the
    concurrency budget. *)

Inductive phase : Type :=
  | Queued          (* submitted to the pool, no thread has taken it *)
  | Started         (* at the top of the worker *)
  | Waiting         (* at [async with self.semaphore], not yet admitted *)
  | FetchingPage    (* GET of the source page in flight *)
  | FetchingImage   (* GET of the image in flight *)
  | Done.           (* returned *)

#[global] Instance phase_eq_dec : EqDecision phase.
Proof. solve_decision. Defined.

Definition is_done (p : phase) : bool :=
  match p with Done => true | _ => false end.

(** A Fetch Client call executes in exactly these positions. *)
Definition fetching (p : phase) : bool :=
  match p with FetchingPage | FetchingImage => true | _ => false end.

Inductive action : Type :=
  | Move (i : nat) (next : phase)   (* worker [i] runs up to [next] *)
  | Return.                         (* the batch call returns *)

Record pool : Type := mkPool {
  permits : nat;            (* free units of the concurrency budget *)
  tasks : list phase;
  returned : bool
}.

Fixpoint count_if (f : phase -> bool) (l : list phase) : nat :=
  match l with
  | [] => 0
  | p :: r => (if f p then 1 else 0) + count_if f r
  end.

(** Fetch Client calls executing in a state. *)
Definition in_flight (s : pool) : nat := count_if fetching (tasks s).

Section Orchestrator.

(** The moves a worker can make, and the positions holding a unit. *)
Variable moves : phase -> phase -> bool.
Variable holds : phase -> bool.

Definition step (s : pool) (a : action) : option pool :=
  match a with
  | Move i next =>
      match tasks s !! i with
      | Some p =>
          if moves p next then
            if negb (holds p) && holds next then
              match permits s with
              | O => None                     (* budget exhausted: blocked *)
              | S k => Some (mkPool k (<[i := next]> (tasks s)) (returned s))
              end
            else if holds p && negb (holds next) then
              Some (mkPool (S (permits s)) (<[i := next]> (tasks s)) (returned s))
            else Some (mkPool (permits s) (<[i := next]> (tasks s)) (returned s))
          else None
      | None => None
      end
  | Return =>
      if forallb is_done (tasks s) && negb (returned s)
      then Some (mkPool (permits s) (tasks s) true)
      else None
  end.

Fixpoint run (schedule : list action) (s : pool) : option pool :=
  match schedule with
  | [] => Some s
  | a :: rest =>
      match step s a with
      | Some s' => run rest s'
      | None => None
      end
  end.

End Orchestrator.

(** [AsyncWikiImageDownloader]: [asyncio.gather] starts every task; the
    section under [async with self.semaphore] holds a unit. *)
Definition async_moves (p q : phase) : bool :=
  match p, q with
  | Started, Done => true            (* no URL, or cache hit *)
  | Started, Waiting => true         (* cache miss *)
  | Waiting, FetchingPage => true    (* semaphore acquired *)
  | FetchingPage, Done => true       (* no page, no image, or cached post-scrape *)
  | FetchingPage, FetchingImage => true
  | FetchingImage, Done => true      (* saved, or download failed *)
  | _, _ => false
  end.

Definition async_holds (p : phase) : bool :=
  match p with FetchingPage | FetchingImage => true | _ => false end.

Definition async_init (concurrency n : nat) : pool :=
  mkPool concurrency (replicate n Started) false.

(** [WikiImageDownloader]: [executor.map] queues every entry; a worker
    runs from top to bottom on one of the [max_workers] threads. *)
Definition sync_moves (p q : phase) : bool :=
  match p, q with
  | Queued, Started => true          (* a pool thread takes the entry *)
  | Started, Done => true            (* no URL, or cache hit *)
  | Started, FetchingPage => true    (* cache miss *)
  | FetchingPage, Done => true       (* no image, or an exception *)
  | FetchingPage, FetchingImage => true
  | FetchingImage, Done => true      (* downloaded, or an exception *)
  | _, _ => false
  end.

Definition sync_holds (p : phase) : bool :=
  match p with Started | FetchingPage | FetchingImage => true | _ => false end.

Definition sync_init (max_workers n : nat) : pool :=
  mkPool max_workers (replicate n Queued) false.

Definition moves_of (v : version) : phase -> phase -> bool :=
  match v with ThreadPool => sync_moves | Asyncio => async_moves end.

Definition holds_of (v : version) : phase -> bool :=
  match v with ThreadPool => sync_holds | Asyncio => async_holds end.

(** The state in which the batch call starts, for [n] scheduled entities
    and a budget of [limit]. *)
Definition init (v : version) (limit n : nat) : pool :=
  match v with
  | ThreadPool => sync_init limit n
  | Asyncio => async_init limit n
  end.

(** The batch of a version under a schedule. *)
Definition run_batch (v : version) (schedule : list action) (limit n : nat)
  : option pool :=
  run (moves_of v) (holds_of v) schedule (init v limit n).

(** The invariant of the batch: free units plus units held make up the
    budget, and a batch that has returned has no worker left running. *)
Definition balanced (holds : phase -> bool) (limit n : nat) (s : pool) : Prop :=
  permits s + count_if holds (tasks s) = limit /\
  length (tasks s) = n /\
  (returned s = true -> forallb is_done (tasks s) = true).

(** Worker [i] goes all the way to its page fetch. *)
Definition to_page_fetch (v : version) (i : nat) : list action :=
  match v with
  | ThreadPool => [Move i Started; Move i FetchingPage]
  | Asyncio => [Move i Waiting; Move i FetchingPage]
  end.

(** Worker [i] runs from top to bottom, fetching page and image. *)
Definition full_run (v : version) (i : nat) : list action :=
  to_page_fetch v i ++ [Move i FetchingImage; Move i Done].

(** The position in which a worker of the batch starts. *)
Definition first_phase (v : version) : phase :=
  match v with ThreadPool => Queued | Asyncio => Started end.

(** The schedule that runs the workers one after the other, then lets the
    batch call return. *)
Definition one_by_one (v : version) (n : nat) : list action :=
  flat_map (full_run v) (seq 0 n) ++ [Return].

(** ** Sample pages

    Trees of the shape Wikipedia serves, used to evaluate the locators. *)

Definition img (classes : list string) (src : string) : node :=
  NElem "img" classes [("src", src)] [].

Definition page (body : list node) : soup :=
  [NElem "html" [] [] [NElem "body" [] [] body]].

(** A taxobox without a picture, followed by a thumbnail in the text. *)
Definition doc_infobox_no_img : soup :=
  page [ NElem "table" ["infobox"; "biota"] []
           [NElem "tr" [] [] [NElem "td" [] [] [NText "Vulpes"]]] ;
         NElem "figure" [] [("typeof", "mw:File/Thumb")]
           [NElem "a" ["mw-file-description"] [("href", "/wiki/File:Fox.jpg")]
              [img ["mw-file-element"] "//upload.wikimedia.org/fox.jpg"]] ].

(** No taxobox; a thumbnail whose image carries no marker class. *)
Definition doc_thumb_only : soup :=
  page [ NElem "figure" [] [("typeof", "mw:File/Thumb")]
           [img [] "//upload.wikimedia.org/fox.jpg"] ].

(** The page of the test [test_end_to_end_image_download]. *)
Definition doc_infobox : soup :=
  page [ NElem "table" ["infobox"; "biota"] []
           [NElem "tr" [] []
              [NElem "td" [] [] [img [] "//upload.wikimedia.org/fake_image.jpg"]]] ].

(** Only a generic article-file image. *)
Definition doc_file_element : soup :=
  page [ NElem "p" [] [] [NText "text"] ;
         img ["mw-file-element"] "//host/img.png" ].

Definition tab : string := String (ascii_of_N 9) "".

(** What a sanitized prefix is made of: kept characters that [lower]
    leaves alone. *)
Definition settled (c : ascii) : bool :=
  keep_char c && Ascii.eqb (char_lower c) c.

(** ** Sample entries and environments *)

Definition fake_url : string := "https://en.wikipedia.org/wiki/Fake_Animal".
Definition fake_img_url : string := "https://upload.wikimedia.org/fake_image.jpg".

Definition fake_html : string :=
  "<html><body><table class='infobox biota'><tr><td><img src='//upload.wikimedia.org/fake_image.jpg'/></td></tr></table></body></html>".

(** The entry of [test_end_to_end_image_download]. *)
Definition fake_entry : entry :=
  <["name" := PyStr "Fake Animal"]> (<["wiki_url" := PyStr fake_url]> ∅).

(** An entry the scraper builds for a table row without a link. *)
Definition unlinked_entry : entry :=
  <["name" := PyStr "Yeti"]> (<["wiki_url" := PyNone]> ∅).

(** An entry whose name holds no character the codec keeps. *)
Definition odd_entry : entry :=
  <["name" := PyStr "???"]> (<["wiki_url" := PyStr fake_url]> ∅).

(** Both GETs succeed; [others] is what the other workers store while the
    page is fetched. *)
Definition fake_world (others : list string) : world :=
  mkWorld
    (fun url =>
       if String.eqb url fake_url then Reply (mkResponse 200 fake_html true)
       else if String.eqb url fake_img_url then Reply (mkResponse 200 "" true)
       else Unreachable)
    (fun html => if String.eqb html fake_html then doc_infobox else [])
    others (fun _ => true) (fun _ => true).

(** Nothing can be reached. *)
Definition offline : world :=
  mkWorld (fun _ => Unreachable) (fun _ => []) [] (fun _ => true) (fun _ => true).

(** The page is served, the image transfer breaks half-way. *)
Definition broken_image_world : world :=
  mkWorld
    (fun url =>
       if String.eqb url fake_url then Reply (mkResponse 200 fake_html true)
       else if String.eqb url fake_img_url then Reply (mkResponse 200 "" false)
       else Unreachable)
    (fun html => if String.eqb html fake_html then doc_infobox else [])
    [] (fun _ => true) (fun _ => true).

(** A taxobox whose picture has the reference [src]. *)
Definition doc_with_src (src : string) : soup :=
  page [ NElem "table" ["infobox"; "biota"] []
           [NElem "tr" [] [] [NElem "td" [] [] [img [] src]]] ].

(** Its text: the page of [test_end_to_end_image_download] with another
    reference. *)
Definition html_with_src (src : string) : string :=
  "<html><body><table class='infobox biota'><tr><td><img src='" +:+ src
  +:+ "'/></td></tr></table></body></html>".

(** The page of [fake_url] shows a picture with the reference [src];
    every other GET is answered with an empty body. *)
Definition world_showing (src : string) : world :=
  mkWorld
    (fun url =>
       if String.eqb url fake_url
       then Reply (mkResponse 200 (html_with_src src) true)
       else Reply (mkResponse 200 "" true))
    (fun html => if String.eqb html (html_with_src src) then doc_with_src src else [])
    [] (fun _ => true) (fun _ => true).

(** A reference with an opening square bracket and no closing one. *)
Definition bracket_src : string := "//[upload.wikimedia.org/fox.jpg".

(** A reference whose path ends in a dot. *)
Definition dot_src : string := "//upload.wikimedia.org/fox.".

(** ** The table scraper: [scraper.py]

    bs4 trees are mutable and [parse_cell_text] removes the [sup] elements
    of the cell it is given, so the rows of the table are addressed by
    their path in the tree and the tree is threaded through the loop.  A
    removed element leaves an empty string in its place: [contents],
    [get_text], [find] and [find_all] cannot tell, and the paths of the
    other nodes stay valid. *)

Module Scraper.

#[local] Open Scope list_scope.

(** [s.split(sep)] for a one-character separator. *)
Fixpoint split_char (sep : ascii) (s : string) : list string :=
  match s with
  | EmptyString => [EmptyString]
  | String x r =>
      if Ascii.eqb x sep then EmptyString :: split_char sep r
      else match split_char sep r with
           | p :: ps => String x p :: ps
           | [] => [String x EmptyString]
           end
  end.

(** [s.split(sep)[0]] for a non-empty separator: what precedes its first
    occurrence. *)
Fixpoint before_sub (sep s : string) : string :=
  if startswith s sep then EmptyString
  else match s with
       | EmptyString => EmptyString
       | String x r => String x (before_sub sep r)
       end.

(** [l.index(x)] *)
Fixpoint index_of (x : string) (l : list string) : option nat :=
  match l with
  | [] => None
  | y :: r => if String.eqb y x then Some 0 else option_map S (index_of x r)
  end.

(** [tag.get_text()] *)
Fixpoint get_text (n : node) : string :=
  match n with
  | NText s => s
  | NElem _ _ _ ch =>
      (fix cat (l : list node) : string :=
         match l with
         | [] => EmptyString
         | x :: r => get_text x +:+ cat r
         end) ch
  end.

(** The descendants of a node in document order, each with its path. *)
Fixpoint descendants (n : node) : list (list nat * node) :=
  match n with
  | NText _ => []
  | NElem _ _ _ ch =>
      (fix walk (i : nat) (l : list node) : list (list nat * node) :=
         match l with
         | [] => []
         | x :: r =>
             ([i], x)
             :: map (fun '(pth, y) => (i :: pth, y)) (descendants x)
             ++ walk (S i) r
         end) 0 ch
  end.

(** [tag.find_all(...)], with paths. *)
Definition find_all_at (p : node -> bool) (n : node) : list (list nat * node) :=
  List.filter (fun '(_, y) => p y) (descendants n).

(** [tag.find_all(...)] *)
Definition find_all (p : node -> bool) (n : node) : list node :=
  map snd (find_all_at p n).

(** The node at a path, if it is still there. *)
Fixpoint subtree (pth : list nat) (n : node) : option node :=
  match pth with
  | [] => Some n
  | i :: rest =>
      match n with
      | NText _ => None
      | NElem _ _ _ ch =>
          match nth_error ch i with
          | Some x => subtree rest x
          | None => None
          end
      end
  end.

(** The tree with the node at a path replaced. *)
Fixpoint replace_at (pth : list nat) (new : node) (n : node) : node :=
  match pth with
  | [] => new
  | i :: rest =>
      match n with
      | NText _ => n
      | NElem t cl at_ ch =>
          NElem t cl at_
            ((fix upd (j : nat) (l : list node) : list node :=
                match l with
                | [] => []
                | x :: r =>
                    match j with
                    | O => replace_at rest new x :: r
                    | S j' => x :: upd j' r
                    end
                end) i ch)
      end
  end.

(** What [for sup in cell.find_all("sup"): sup.decompose()] leaves of a
    node. *)
Fixpoint without_sup (n : node) : node :=
  match n with
  | NText _ => n
  | NElem t cl at_ ch =>
      NElem t cl at_
        ((fix clean (l : list node) : list node :=
            match l with
            | [] => []
            | x :: r =>
                (if Bs4.name_is "sup" x then NText EmptyString else without_sup x)
                :: clean r
            end) ch)
  end.

(** [[p.strip() for p in s.split(",") if p.strip()]] *)
Definition comma_parts (s : string) : list string :=
  List.filter nonempty (map strip (split_char "," s)).

(** The list [parse_cell_text] builds from the contents of a cell. *)
Definition cell_parts (contents : list node) : list string :=
  flat_map
    (fun element =>
       match element with
       | NText s => comma_parts s
       | NElem t _ _ _ =>
           if String.eqb t "br" then [] else comma_parts (get_text element)
       end) contents.

(** [parse_cell_text(cell)]: the cell as it is left, and the list
    returned. *)
Definition parse_cell_text (cell : node) : node * list string :=
  let cell := without_sup cell in
  (cell, cell_parts (Bs4.children cell)).

Definition WIKI_URL : string :=
  "https://en.wikipedia.org/wiki/List_of_animal_names".

Inductive error : Type :=
  | FetchFailed (e : exn)              (* raised by [fetch_html] *)
  | TableNotFound                      (* fewer than two wikitables *)
  | ColumnsNotFound (headers : list string).

Inductive result (A : Type) : Type :=
  | Success (a : A)
  | Failure (e : error).
Arguments Success {A} a.
Arguments Failure {A} e.

(** [CollateralAdjectiveScraper.fetch_html]; the document is the root the
    parser returns. *)
Definition fetch_html (w : world) : result node :=
  match http_get w WIKI_URL with
  | Unreachable => Failure (FetchFailed (RequestException WIKI_URL))
  | Reply r =>
      if bad_status r then Failure (FetchFailed (HTTPError WIKI_URL (status r)))
      else Success (NElem "[document]" [] [] (parse_html w (text r)))
  end.

(** [{"name": name_text, "wiki_url": href}] *)
Definition new_entry (name_text : string) (href : pyval) : entry :=
  <["name" := PyStr name_text]> (<["wiki_url" := href]> ∅).

(** [if adj not in mapping: mapping[adj] = []] then
    [mapping[adj].append(e)], on a dict in insertion order. *)
Fixpoint append_to (adj : string) (e : entry) (m : mapping) : mapping :=
  match m with
  | [] => [(adj, [e])]
  | (k, l) :: r =>
      if String.eqb k adj then (k, l ++ [e]) :: r
      else (k, l) :: append_to adj e r
  end.

(** [f"https://en.wikipedia.org{link_tag.get('href')}" if link_tag else
    None] *)
Definition href_of (link_tag : option node) : pyval :=
  match link_tag with
  | Some a =>
      PyStr ("https://en.wikipedia.org"
             +:+ match Bs4.get a "href" with Some h => h | None => "None" end)
  | None => PyNone
  end.

(** The name of the animal of a row: the text of the link, or else of the
    cell, stripped, up to the first [" ("]. *)
Definition name_of (link_tag : option node) (name_cell : node) : string :=
  before_sub " ("
    (strip (get_text (match link_tag with Some a => a | None => name_cell end))).

Definition is_cell (n : node) : bool :=
  Bs4.name_is "td" n || Bs4.name_is "th" n.

(** One turn of the loop over the rows: the row at [pth] of the table
    [tbl], the mapping so far. *)
Definition scan_row (name_idx adjective_idx : nat) (pth : list nat)
    (tbl : node) (m : mapping) : node * mapping :=
  match subtree pth tbl with
  | None => (tbl, m)                   (* the row went with a [sup] *)
  | Some row =>
      let cells := find_all_at is_cell row in
      if (length cells <=? Nat.max name_idx adjective_idx)%nat then (tbl, m)
      else
        match nth_error cells name_idx, nth_error cells adjective_idx with
        | Some (_, name_cell), Some (adj_pth, adj_cell) =>
            let link_tag := Bs4.find (Bs4.name_is "a") name_cell in
            let href := href_of link_tag in
            let name_text := name_of link_tag name_cell in
            let '(adj_cell', parts) := parse_cell_text adj_cell in
            let adjectives := map lower parts in
            (replace_at (pth ++ adj_pth) adj_cell' tbl,
             fold_left (fun m adj => append_to adj (new_entry name_text href) m)
               adjectives m)
        | _, _ => (tbl, m)
        end
  end.

(** The loop [for row in table.find_all("tr")[1:]]. *)
Fixpoint scan_rows (name_idx adjective_idx : nat) (rows : list (list nat))
    (tbl : node) (m : mapping) : mapping :=
  match rows with
  | [] => m
  | pth :: rest =>
      let '(tbl', m') := scan_row name_idx adjective_idx pth tbl m in
      scan_rows name_idx adjective_idx rest tbl' m'
  end.

Definition is_wikitable (n : node) : bool :=
  Bs4.name_is "table" n && Bs4.class_matches (String.eqb "wikitable") n.

(** [[th.text.strip().lower() for th in table.find_all("th")]] *)
Definition headers_of (table : node) : list string :=
  map (fun th => lower (strip (get_text th))) (find_all (Bs4.name_is "th") table).

(** What [get_collateral_adjectives_map] does with the parsed page. *)
Definition adjectives_map_of (doc : node) : result mapping :=
  match find_all is_wikitable doc with
  | _ :: table :: _ =>
      let headers := headers_of table in
      match index_of "animal" headers,
            index_of "collateral adjective" headers with
      | Some name_idx, Some adjective_idx =>
          Success
            (scan_rows name_idx adjective_idx
               (tail (map fst (find_all_at (Bs4.name_is "tr") table)))
               table [])
      | _, _ => Failure (ColumnsNotFound headers)
      end
  | _ => Failure TableNotFound
  end.

(** [CollateralAdjectiveScraper.get_collateral_adjectives_map] *)
Definition get_collateral_adjectives_map (w : world) : result mapping :=
  match fetch_html w with
  | Success doc => adjectives_map_of doc
  | Failure e => Failure e
  end.

End Scraper.

(** A key of the scraped mapping: not empty, stripped, lower-case, without
    a comma. *)
Definition adjective_key (k : string) : Prop :=
  nonempty k = true /\ strip k = k /\ lower k = k /\
  PyPath.contains_char "," k = false.

(** An entry as the scraper builds it: a name without [" ("], and a source
    URL that is [None] or on en.wikipedia.org. *)
Definition scraped_entry (e : entry) : Prop :=
  exists name href,
    e = Scraper.new_entry name href /\
    Bs4.str_in " (" name = false /\
    (href = PyNone \/ exists path, href = PyStr ("https://en.wikipedia.org" +:+ path)).

(** A mapping as the scraper builds it. *)
Definition scraped_mapping (m : mapping) : Prop :=
  List.NoDup (map fst m) /\
  List.Forall
    (fun kl => adjective_key (fst kl) /\ snd kl <> [] /\
               List.Forall scraped_entry (snd kl)) m.

(** The page of the test [test_get_collateral_adjectives_map_parsing]. *)
Definition animals_page : soup :=
  page [ NElem "table" ["wikitable"] [] [] ;
         NElem "table" ["wikitable"] []
           [ NElem "tr" [] []
               [ NElem "th" [] [] [NText "Animal"] ;
                 NElem "th" [] [] [NText "Collateral adjective"] ] ;
             NElem "tr" [] []
               [ NElem "td" [] [] [NElem "a" [] [("href", "/wiki/Cat")] [NText "Cat"]] ;
                 NElem "td" [] [] [NText "Feline"] ] ;
             NElem "tr" [] []
               [ NElem "td" [] [] [NElem "a" [] [("href", "/wiki/Dog")] [NText "Dog"]] ;
                 NElem "td" [] [] [NText "Canine"] ] ] ].

(** [mapping[k]], if the key is there. *)
Fixpoint mapping_get (k : string) (m : mapping) : option (list entry) :=
  match m with
  | [] => None
  | (k', l) :: r => if String.eqb k' k then Some l else mapping_get k r
  end.

(** An environment that serves that page to the scraper. *)
Definition animals_world : world :=
  mkWorld
    (fun url =>
       if String.eqb url Scraper.WIKI_URL
       then Reply (mkResponse 200 "List of animal names" true)
       else Unreachable)
    (fun html =>
       if String.eqb html "List of animal names" then animals_page else [])
    [] (fun _ => true) (fun _ => true).

(** The cell of the test [test_parse_cell_text_basic]. *)
Definition sample_cell : node :=
  NElem "td" [] []
    [ NText "Mammalian, " ;
      NElem "sup" [] [("id", "cite_ref")] [NText "[1]"] ;
      NText "Reptilian" ;
      NElem "br" [] [] [] ;
      NText "Avian" ].

(** What [os.listdir] returns: names, without a slash. *)
Definition basenames (l : list string) : bool :=
  forallb (fun f => negb (PyPath.contains_char "/" f)) l.

(** * Properties *)

(** ** Character classes *)

Ltac by_cases_on_char c :=
  destruct c as [[] [] [] [] [] [] [] []]; vm_compute; try reflexivity;
  try discriminate; try (intros; discriminate); try (intros; reflexivity).

Lemma char_lower_idem (c : ascii) : char_lower (char_lower c) = char_lower c.
Proof. by_cases_on_char c. Qed.

Lemma is_space_lower (c : ascii) : is_space (char_lower c) = is_space c.
Proof. by_cases_on_char c. Qed.

Lemma keep_char_lower (c : ascii) : keep_char (char_lower c) = keep_char c.
Proof. by_cases_on_char c. Qed.

Lemma keep_char_not_space (c : ascii) :
  keep_char c = true -> is_space c = false.
Proof. by_cases_on_char c. Qed.


Lemma lower_fixed_permitted (c : ascii) :
  keep_char c = true -> Ascii.eqb (char_lower c) c = true -> permitted c = true.
Proof. by_cases_on_char c. Qed.

Lemma permitted_keep (c : ascii) : permitted c = true -> keep_char c = true.
Proof. by_cases_on_char c. Qed.

Lemma permitted_lower_fixed (c : ascii) :
  permitted c = true -> char_lower c = c.
Proof. by_cases_on_char c. Qed.

(** ** Strings *)

Lemma app_nil (t : string) : "" +:+ t = t.
Proof. reflexivity. Qed.

Lemma app_cons (c : ascii) (s t : string) :
  String c s +:+ t = String c (s +:+ t).
Proof. reflexivity. Qed.

Section StringFacts.

Variables (f : ascii -> ascii) (p q : ascii -> bool).



Lemma str_all_app (s t : string) :
  str_all p (s +:+ t) = str_all p s && str_all p t.
Proof.
  induction s as [|c s IH]; [reflexivity|].
  rewrite app_cons. simpl. now rewrite IH, andb_assoc.
Qed.

Lemma str_all_impl (s : string) :
  (forall c, p c = true -> q c = true) ->
  str_all p s = true -> str_all q s = true.
Proof.
  intros Hpq. induction s as [|c s IH]; simpl; [reflexivity|].
  intros [Hc Hs]%andb_prop. rewrite (Hpq _ Hc). simpl. now apply IH.
Qed.

Lemma str_all_filter (s : string) : str_all p (str_filter p s) = true.
Proof.
  induction s as [|c s IH]; simpl; [reflexivity|].
  destruct (p c) eqn:E; simpl; [now rewrite E|assumption].
Qed.

Lemma str_all_filter_keeps (s : string) :
  str_all q s = true -> str_all q (str_filter p s) = true.
Proof.
  induction s as [|c s IH]; simpl; [reflexivity|].
  intros [Hc Hs]%andb_prop.
  destruct (p c); simpl; [rewrite Hc; simpl|]; now apply IH.
Qed.

Lemma str_filter_all (s : string) :
  str_all p s = true -> str_filter p s = s.
Proof.
  induction s as [|c s IH]; simpl; [reflexivity|].
  intros [Hc Hs]%andb_prop. rewrite Hc. now rewrite IH.
Qed.


Lemma str_map_fixed (s : string) :
  str_all (fun c => Ascii.eqb (f c) c) s = true -> str_map f s = s.
Proof.
  induction s as [|c s IH]; simpl; [reflexivity|].
  intros [Hc Hs]%andb_prop. apply Ascii.eqb_eq in Hc. rewrite Hc.
  now rewrite IH.
Qed.

Lemma str_all_map (s : string) :
  str_all p (str_map f s) = str_all (fun c => p (f c)) s.
Proof. induction s as [|c s IH]; simpl; [reflexivity | now rewrite IH]. Qed.

Lemma str_all_lstrip (s : string) :
  str_all p s = true -> str_all p (lstrip s) = true.
Proof.
  induction s as [|c s IH]; simpl; [reflexivity|].
  intros H. destruct (is_space c); [|exact H].
  apply andb_prop in H. now apply IH.
Qed.

Lemma str_all_rstrip (s : string) :
  str_all p s = true -> str_all p (rstrip s) = true.
Proof.
  induction s as [|c s IH]; simpl; [reflexivity|].
  intros [Hc Hs]%andb_prop. specialize (IH Hs).
  destruct (rstrip s) as [|d r].
  - destruct (is_space c); simpl; [reflexivity | now rewrite Hc].
  - simpl in *. now rewrite Hc.
Qed.

End StringFacts.

Lemma app_empty_r (s : string) : s +:+ "" = s.
Proof.
  induction s as [|c s IH]; [reflexivity | now rewrite app_cons, IH].
Qed.



Lemma lstrip_solid (c : ascii) (s : string) :
  is_space c = false -> lstrip (String c s) = String c s.
Proof. intros H. simpl. now rewrite H. Qed.



Lemma rstrip_no_space (s : string) :
  str_all (fun c => negb (is_space c)) s = true -> rstrip s = s.
Proof.
  induction s as [|c s IH]; simpl; [reflexivity|].
  intros [Hc Hs]%andb_prop. rewrite (IH Hs).
  apply negb_true_iff in Hc. rewrite Hc. now destruct s.
Qed.


Lemma lstrip_no_space (s : string) :
  str_all (fun c => negb (is_space c)) s = true -> lstrip s = s.
Proof.
  destruct s as [|c s]; simpl; [reflexivity|].
  intros [Hc _]%andb_prop. apply negb_true_iff in Hc. now rewrite Hc.
Qed.



(** ** The Filename Codec *)

Lemma safe_name_settled (name : string) :
  str_all settled (safe_name name) = true.
Proof.
  unfold safe_name, re_sub_unsafe, settled.
  assert (H : str_all (fun c => Ascii.eqb (char_lower c) c)
                (replace_char " " "_" (strip (lower name))) = true).
  { unfold replace_char. rewrite str_all_map.
    apply str_all_impl with (p := fun c => Ascii.eqb (char_lower c) c).
    - intros c Hc. destruct (Ascii.eqb c " "); [reflexivity | exact Hc].
    - unfold strip. apply str_all_rstrip, str_all_lstrip.
      unfold lower. rewrite str_all_map.
      induction name as [|c s IH]; simpl; [reflexivity|].
      rewrite char_lower_idem, Ascii.eqb_refl. exact IH. }
  revert H. generalize (replace_char " " "_" (strip (lower name))).
  intros s. induction s as [|c s IH]; cbn [str_all str_filter]; [reflexivity|].
  intros [Hc Hs]%andb_prop. destruct (keep_char c) eqn:Ek; cbn [str_all].
  - rewrite Ek, Hc. now apply IH.
  - now apply IH.
Qed.

Lemma safe_name_fixpoint (s : string) :
  str_all settled s = true -> safe_name s = s.
Proof.
  intros H. unfold safe_name, re_sub_unsafe, replace_char, strip, lower.
  assert (Hlow : str_map char_lower s = s).
  { apply str_map_fixed. revert H. apply str_all_impl.
    unfold settled. intros c [_ Hc]%andb_prop. exact Hc. }
  assert (Hns : str_all (fun c => negb (is_space c)) s = true).
  { revert H. apply str_all_impl. unfold settled.
    intros c [Hc _]%andb_prop. now rewrite (keep_char_not_space _ Hc). }
  rewrite Hlow, (lstrip_no_space _ Hns), (rstrip_no_space _ Hns).
  rewrite str_map_fixed.
  - apply str_filter_all. revert H. apply str_all_impl.
    unfold settled. now intros c [Hc _]%andb_prop.
  - revert H. apply str_all_impl. unfold settled.
    intros c [Hc _]%andb_prop.
    destruct (Ascii.eqb c " ") eqn:E; [|apply Ascii.eqb_refl].
    apply Ascii.eqb_eq in E. subst c. discriminate Hc.
Qed.

(** On names over U+0000..U+00FF the sanitizing transform is idempotent,
    and its result holds only lower-case alphanumerics, underscores and
    hyphens. *)
Lemma safe_name_idempotent_permitted (n : string) :
  safe_name (safe_name n) = safe_name n /\
  str_all permitted (safe_name n) = true.
Proof.
  split.
  - apply safe_name_fixpoint, safe_name_settled.
  - generalize (safe_name_settled n). apply str_all_impl.
    unfold settled. intros c [Hk Hf]%andb_prop.
    now apply lower_fixed_permitted.
Qed.






Example safe_name_red_fox : safe_name "Red Fox" = "red_fox".
Proof. reflexivity. Qed.

Example safe_name_trim : safe_name "  Arctic-Fox_2 " = "arctic-fox_2".
Proof. reflexivity. Qed.

Example safe_name_interior_tab :
  safe_name ("red" +:+ tab +:+ "fox") = "redfox".
Proof. reflexivity. Qed.

(** The unit test [test_sanitize_filename_basic]. *)
Example sanitize_filename_basic :
  sanitize_filename "Red Fox" "https://upload.wikimedia.org/image.jpg"
  = "red_fox.jpg".
Proof. reflexivity. Qed.

Example sanitize_filename_default_ext :
  sanitize_filename "Red Fox" "https://x/y/image" = "red_fox.jpg".
Proof. reflexivity. Qed.

Example sanitize_filename_query :
  sanitize_filename "Red Fox" "https://x/y.d/image.PNG?width=200#top"
  = "red_fox.PNG".
Proof. reflexivity. Qed.

Example url_path_examples :
  PyPath.url_path "//upload.wikimedia.org/a/b.svg.png" = "/a/b.svg.png" /\
  PyPath.url_path "https://host" = "" /\
  PyPath.url_path "/static/x.gif;v=1" = "/static/x.gif" /\
  PyPath.splitext_ext "/a/.hidden" = "" /\
  PyPath.splitext_ext "/a.b/c" = "" /\
  PyPath.join "tmp" "red_fox.jpg" = "tmp/red_fox.jpg" /\
  PyPath.join "tmp/" "red_fox.jpg" = "tmp/red_fox.jpg".
Proof. repeat split; reflexivity. Qed.

(** [urlsplit] drops leading blanks and every tab, CR and LF before it
    looks for the parts of the URL, and rejects a netloc with a lone
    square bracket. *)
Example urlsplit_examples :
  PyPath.url_path (" " +:+ tab +:+ "https://host/a" +:+ tab +:+ "b.png") = "/ab.png" /\
  PyPath.url_path "https://host/a b.png " = "/a b.png " /\
  PyPath.url_netloc "https://user@host:80/a.png" = "user@host:80" /\
  PyPath.url_netloc "/a//b.png" = "" /\
  PyPath.unbalanced_brackets (PyPath.url_netloc "https://[host/a.png") = true /\
  PyPath.unbalanced_brackets (PyPath.url_netloc "https://host/[a.png") = false /\
  PyPath.bracketed (PyPath.url_netloc "https://[::1]:80/a.png") = true.
Proof. repeat split; reflexivity. Qed.

(** ** The sanitizing expression over all code points *)

Open Scope list_scope.

Section WideCodec.

Variable U : Wide.ucd.
Hypothesis HU : Wide.regular U.

Lemma wide_lstrip_in (s : Wide.ustr) (c : N) :
  List.In c (Wide.lstrip U s) -> List.In c s.
Proof.
  induction s as [|x r IH]; cbn [Wide.lstrip]; [trivial|].
  destruct (Wide.u_isspace U x); [|trivial].
  intros H. right. now apply IH.
Qed.

Lemma wide_rstrip_in (s : Wide.ustr) (c : N) :
  List.In c (Wide.rstrip U s) -> List.In c s.
Proof.
  induction s as [|x r IH]; cbn [Wide.rstrip]; [trivial|].
  destruct (Wide.rstrip U r) as [|y r'].
  - destruct (Wide.u_isspace U x); [intros [] | intros [->|[]]; now left].
  - intros [->|H]; [now left | right; now apply IH].
Qed.

Lemma wide_strip_in (s : Wide.ustr) (c : N) :
  List.In c (Wide.strip U s) -> List.In c s.
Proof. intros H. now apply wide_lstrip_in, wide_rstrip_in. Qed.

Lemma wide_rstrip_solid (s : Wide.ustr) :
  (forall c, List.In c s -> Wide.u_isspace U c = false) ->
  Wide.rstrip U s = s.
Proof.
  induction s as [|x r IH]; intros H; cbn [Wide.rstrip]; [reflexivity|].
  rewrite IH by (intros c Hc; apply H; now right).
  destruct r; [|reflexivity]. now rewrite (H x) by now left.
Qed.

Lemma wide_strip_solid (s : Wide.ustr) :
  (forall c, List.In c s -> Wide.u_isspace U c = false) ->
  Wide.strip U s = s.
Proof.
  intros H. unfold Wide.strip.
  assert (Hl : Wide.lstrip U s = s).
  { destruct s as [|x r]; [reflexivity|]. cbn [Wide.lstrip].
    now rewrite (H x) by now left. }
  rewrite Hl. now apply wide_rstrip_solid.
Qed.

Lemma wide_keep_not_32 (c : N) : Wide.keep U c = true -> (c =? 32)%N = false.
Proof.
  intros Hk. destruct (c =? 32)%N eqn:E; [|reflexivity].
  apply N.eqb_eq in E. subst c.
  apply (Wide.kept_not_space U HU) in Hk.
  rewrite (Wide.space_is_space U HU) in Hk. discriminate.
Qed.

(** A string of settled characters is left as it is. *)
Lemma wide_safe_name_fixpoint (t : Wide.ustr) :
  List.Forall (Wide.settled U) t -> Wide.safe_name U t = t.
Proof.
  intros Ht. rewrite List.Forall_forall in Ht. unfold Wide.safe_name.
  rewrite (Wide.lower_pointwise U HU) by (intros c Hc; now apply Ht).
  rewrite wide_strip_solid
    by (intros c Hc; apply (Wide.kept_not_space U HU); now apply Ht).
  assert (Hr : Wide.replace_space t = t).
  { unfold Wide.replace_space. rewrite <- (List.map_id t) at 2.
    apply List.map_ext_in. intros c Hc.
    now rewrite wide_keep_not_32 by now apply Ht. }
  rewrite Hr. clear Hr. induction t as [|c r IH]; [reflexivity|].
  cbn [List.filter]. rewrite (proj1 (Ht c (or_introl eq_refl))).
  f_equal. apply IH. intros d Hd. apply Ht. now right.
Qed.

(** The result is made of settled characters. *)
Lemma wide_safe_name_settled (n : Wide.ustr) :
  List.Forall (Wide.settled U) (Wide.safe_name U n).
Proof.
  apply List.Forall_forall. intros c Hc. unfold Wide.safe_name in Hc.
  apply List.filter_In in Hc as [Hc Hk]. split; [exact Hk|].
  unfold Wide.replace_space in Hc.
  apply List.in_map_iff in Hc as (d & Hd & Hin).
  destruct (d =? 32)%N eqn:E.
  - subst c. apply (Wide.lower_underscore U HU).
  - subst d. apply wide_strip_in in Hin.
    now apply (Wide.lower_settles U HU) with (s := n).
Qed.

End WideCodec.

(** The narrow model is the wide one on the sample database. *)
Lemma sample_isspace (a : ascii) :
  Wide.u_isspace Wide.sample (N_of_ascii a) = is_space a.
Proof. by_cases_on_char a. Qed.

Lemma sample_keep (a : ascii) :
  Wide.keep Wide.sample (N_of_ascii a) = keep_char a.
Proof. by_cases_on_char a. Qed.

Lemma sample_lower (a : ascii) :
  Wide.latin1_lower (N_of_ascii a) = N_of_ascii (char_lower a).
Proof. by_cases_on_char a. Qed.

Lemma sample_space (a : ascii) :
  (N_of_ascii a =? 32)%N = Ascii.eqb a " ".
Proof. by_cases_on_char a. Qed.

Lemma codes_cons (c : ascii) (s : string) :
  Wide.codes (String c s) = N_of_ascii c :: Wide.codes s.
Proof. reflexivity. Qed.

Lemma codes_lower (s : string) :
  Wide.u_lower Wide.sample (Wide.codes s) = Wide.codes (lower s).
Proof.
  cbn [Wide.u_lower Wide.sample]. unfold lower.
  induction s as [|c s IH]; [reflexivity|].
  cbn [str_map]. rewrite !codes_cons. cbn [List.map].
  now rewrite sample_lower, IH.
Qed.

Lemma codes_lstrip (s : string) :
  Wide.lstrip Wide.sample (Wide.codes s) = Wide.codes (lstrip s).
Proof.
  induction s as [|c s IH]; [reflexivity|].
  rewrite codes_cons. cbn [Wide.lstrip lstrip]. rewrite sample_isspace.
  destruct (is_space c); [exact IH | now rewrite codes_cons].
Qed.

Lemma codes_rstrip (s : string) :
  Wide.rstrip Wide.sample (Wide.codes s) = Wide.codes (rstrip s).
Proof.
  induction s as [|c s IH]; [reflexivity|].
  rewrite codes_cons. cbn [Wide.rstrip rstrip]. rewrite IH, sample_isspace.
  destruct (rstrip s) as [|d r].
  - cbn [Wide.codes list_ascii_of_string List.map].
    now destruct (is_space c).
  - now rewrite !codes_cons.
Qed.

Lemma codes_replace (s : string) :
  Wide.replace_space (Wide.codes s) = Wide.codes (replace_char " " "_" s).
Proof.
  unfold Wide.replace_space, replace_char.
  induction s as [|c s IH]; [reflexivity|].
  cbn [str_map]. rewrite !codes_cons. cbn [List.map].
  rewrite IH, sample_space. now destruct (Ascii.eqb c " ").
Qed.

Lemma codes_filter (s : string) :
  List.filter (Wide.keep Wide.sample) (Wide.codes s)
  = Wide.codes (re_sub_unsafe s).
Proof.
  unfold re_sub_unsafe. induction s as [|c s IH]; [reflexivity|].
  rewrite codes_cons. cbn [List.filter str_filter]. rewrite sample_keep, IH.
  now destruct (keep_char c).
Qed.

Lemma codes_safe_name (s : string) :
  Wide.safe_name Wide.sample (Wide.codes s) = Wide.codes (safe_name s).
Proof.
  unfold Wide.safe_name, Wide.strip, safe_name, strip.
  now rewrite codes_lower, codes_lstrip, codes_rstrip, codes_replace,
    codes_filter.
Qed.

Lemma latin1_lower_idem (c : N) :
  Wide.latin1_lower (Wide.latin1_lower c) = Wide.latin1_lower c.
Proof.
  unfold Wide.latin1_lower at 2 3. destruct (c <? 256)%N eqn:E.
  - now rewrite sample_lower, char_lower_idem.
  - unfold Wide.latin1_lower. now rewrite E.
Qed.

(** The sample database has the properties the expression relies on. *)
Lemma sample_regular : Wide.regular Wide.sample.
Proof.
  constructor.
  - intros c Hk. destruct (c <? 256)%N eqn:E.
    + apply N.ltb_lt in E. rewrite <- (N_ascii_embedding c E) in *.
      rewrite sample_keep in Hk. rewrite sample_isspace.
      now apply keep_char_not_space.
    + cbn [Wide.u_isspace Wide.sample]. now rewrite E.
  - reflexivity.
  - intros s c Hc _. cbn [Wide.u_lower Wide.sample] in *.
    apply List.in_map_iff in Hc as (d & <- & _).
    cbn [List.map]. now rewrite latin1_lower_idem.
  - intros t Ht. cbn [Wide.u_lower Wide.sample] in *.
    rewrite <- (List.map_id t) at 2. apply List.map_ext_in.
    intros c Hc. specialize (Ht c Hc). now injection Ht.
  - reflexivity.
Qed.

(** C9 (as amended): over all code points, for a database with the
    properties [Wide.regular] lists, the sanitizing transform is
    idempotent and its result holds only settled characters: characters
    the pattern keeps (alphanumerics, underscore, hyphen) that
    [str.lower] leaves as they are. *)
Theorem wide_safe_name_idempotent (U : Wide.ucd) (n : Wide.ustr) :
  Wide.regular U ->
  Wide.safe_name U (Wide.safe_name U n) = Wide.safe_name U n /\
  List.Forall (Wide.settled U) (Wide.safe_name U n).
Proof.
  intros HU. split.
  - now apply wide_safe_name_fixpoint, wide_safe_name_settled.
  - now apply wide_safe_name_settled.
Qed.

Lemma wide_safe_name_idempotent_witness :
  Wide.safe_name Wide.sample
    (Wide.safe_name Wide.sample (Wide.codes " Red  Fox (a) " ++ [978%N]))
  = Wide.safe_name Wide.sample (Wide.codes " Red  Fox (a) " ++ [978%N]) /\
  List.Forall (Wide.settled Wide.sample)
    (Wide.safe_name Wide.sample (Wide.codes " Red  Fox (a) " ++ [978%N])).
Proof.
  apply (wide_safe_name_idempotent Wide.sample
           (Wide.codes " Red  Fox (a) " ++ [978%N])).
  exact sample_regular.
Defined.

(** C9, as stated: U+03D2 is an upper-case letter that [str.lower]
    leaves as it is and the pattern keeps; the sanitized prefix of the
    one-letter name is that letter, which is not a lower-case
    alphanumeric. *)
Lemma upper_case_letter_survives :
  Wide.u_isupper Wide.sample 978%N = true /\
  Wide.u_lower Wide.sample [978%N] = [978%N] /\
  Wide.safe_name Wide.sample [978%N] = [978%N] /\
  ~ List.Forall (fun c => Wide.spec_permitted Wide.sample c = true)
      (Wide.safe_name Wide.sample [978%N]).
Proof.
  repeat split. intros H. apply List.Forall_inv in H. discriminate.
Qed.

(** On U+0000..U+00FF the settled characters are the set the
    specification names. *)
Example latin1_settled_is_permitted :
  Wide.safe_name Wide.sample (Wide.codes " Red  Fox (a) ")
  = Wide.codes "red__fox_a" /\
  List.Forall (fun c => Wide.spec_permitted Wide.sample c = true)
    (Wide.safe_name Wide.sample (Wide.codes " Red  Fox (a) ")).
Proof. split; [reflexivity|]. vm_compute. repeat constructor. Qed.

Open Scope string_scope.

(** ** The Image Locator *)

(** The thread-pool locator tries the four rules in order and settles on
    the first hit; the reference of that hit is returned when it is not
    empty. *)
Lemma sync_locate_first_hit (doc : soup) :
  sync_locate doc =
  match first_hit spec_rules doc with
  | Some img => if src_truthy img then Some (normalize_src (src_of img)) else None
  | None => None
  end.
Proof.
  unfold sync_locate, sync_img_tag, find_first_content_image, spec_rules,
    first_hit, rule_infobox, rule_container, rule_file_element, usable.
  destruct (Bs4.find_forest is_infobox doc) as [t|]; simpl.
  - destruct (Bs4.find is_img t) as [i|]; simpl.
    + destruct (src_truthy i) eqn:Ei; simpl; [now rewrite Ei|].
      repeat match goal with
             | |- context [match ?x with _ => _ end] =>
                 lazymatch x with
                 | Bs4.find_forest _ _ => destruct x
                 | Bs4.find _ _ => destruct x
                 | src_truthy _ => destruct x eqn:?
                 end; simpl
             end; congruence.
    + repeat match goal with
             | |- context [match ?x with _ => _ end] =>
                 lazymatch x with
                 | Bs4.find_forest _ _ => destruct x
                 | Bs4.find _ _ => destruct x
                 | src_truthy _ => destruct x eqn:?
                 end; simpl
             end; congruence.
  - repeat match goal with
           | |- context [match ?x with _ => _ end] =>
               lazymatch x with
               | Bs4.find_forest _ _ => destruct x
               | Bs4.find _ _ => destruct x
               | src_truthy _ => destruct x eqn:?
               end; simpl
           end; congruence.
Qed.

(** No rule matches: the thread-pool locator returns nothing. *)
Lemma sync_locate_no_hit (doc : soup) :
  first_hit spec_rules doc = None -> sync_locate doc = None.
Proof. intros H. now rewrite sync_locate_first_hit, H. Qed.

(** The asyncio locator knows two rules only: the infobox image when the
    page has an infobox, the first article-file image otherwise. *)
Lemma extract_image_url_rules (doc : soup) :
  extract_image_url doc =
  match Bs4.find_forest is_infobox doc with
  | Some _ => option_map (fun i => normalize_src (src_of i)) (rule_infobox doc)
  | None => option_map (fun i => normalize_src (src_of i)) (rule_file_element doc)
  end.
Proof.
  unfold extract_image_url, rule_infobox, rule_file_element, usable.
  destruct (Bs4.find_forest is_infobox doc) as [t|]; simpl.
  - destruct (Bs4.find is_img t) as [i|]; simpl; [|reflexivity].
    now destruct (src_truthy i).
  - destruct (Bs4.find_forest is_file_element doc) as [i|]; simpl; [|reflexivity].
    now destruct (src_truthy i).
Qed.

(** C5: on a page whose infobox has no picture and whose text has a
    thumbnail, the second rule hits and the thread-pool locator returns
    its image, but [extract_image_url] returns nothing; likewise on a page
    with a thumbnail whose image has no marker class. *)
Theorem async_locator_skips_fallback_rules :
  option_map src_of (first_hit spec_rules doc_infobox_no_img)
    = Some "//upload.wikimedia.org/fox.jpg" /\
  sync_locate doc_infobox_no_img = Some "https://upload.wikimedia.org/fox.jpg" /\
  extract_image_url doc_infobox_no_img = None /\
  sync_locate doc_thumb_only = Some "https://upload.wikimedia.org/fox.jpg" /\
  extract_image_url doc_thumb_only = None.
Proof. repeat split; reflexivity. Qed.

Example locate_infobox :
  sync_locate doc_infobox = Some "https://upload.wikimedia.org/fake_image.jpg" /\
  extract_image_url doc_infobox = Some "https://upload.wikimedia.org/fake_image.jpg".
Proof. split; reflexivity. Qed.

Example locate_file_element :
  sync_locate doc_file_element = Some "https://host/img.png" /\
  extract_image_url doc_file_element = Some "https://host/img.png".
Proof. split; reflexivity. Qed.

(** The test [test_find_first_content_image_returns_none_for_empty_soup]. *)
Example locate_empty :
  find_first_content_image [NElem "html" [] [] []] = None /\
  sync_locate [NElem "html" [] [] []] = None /\
  extract_image_url [NElem "html" [] [] []] = None.
Proof. repeat split; reflexivity. Qed.

Lemma startswith_app (p s : string) : startswith (p +:+ s) p = true.
Proof.
  induction p as [|c p IH]; [now destruct s|].
  rewrite app_cons. simpl. now rewrite Ascii.eqb_refl, IH.
Qed.

Lemma app_length_str (s t : string) :
  String.length (s +:+ t) = String.length s + String.length t.
Proof.
  induction s as [|c s IH]; [reflexivity|].
  rewrite app_cons. simpl. now rewrite IH.
Qed.

Lemma app_cancel_r (s s' t : string) : s +:+ t = s' +:+ t -> s = s'.
Proof.
  revert s'. induction s as [|c s IH]; intros [|c' s'] H.
  - reflexivity.
  - apply (f_equal String.length) in H.
    rewrite app_nil, app_cons in H. simpl in H. rewrite app_length_str in H. lia.
  - apply (f_equal String.length) in H.
    rewrite app_nil, app_cons in H. simpl in H. rewrite app_length_str in H. lia.
  - rewrite !app_cons in H. injection H as -> H. f_equal. now apply IH.
Qed.

(** C6 (as amended): a reference beginning with ["//"] gets ["https:"] in
    front, one beginning with a single ["/"] gets
    ["https://en.wikipedia.org"], whatever host served the source page, and
    any other reference is unchanged.  The result is the one the
    specification words exactly when the source host is en.wikipedia.org
    or the reference is not site-relative. *)
Theorem normalize_src_fixed_host (src host : string) :
  normalize_src src = spec_normalize_src "en.wikipedia.org" src /\
  (normalize_src src = spec_normalize_src host src <->
   host = "en.wikipedia.org"
   \/ startswith src "//" = true \/ startswith src "/" = false).
Proof.
  split; [reflexivity|].
  unfold normalize_src, spec_normalize_src.
  destruct (startswith src "//") eqn:E2; [tauto|].
  destruct (startswith src "/") eqn:E1; [|tauto].
  split.
  - intros H. left.
    change ("https://en.wikipedia.org" +:+ src)
      with ("https://" +:+ "en.wikipedia.org" +:+ src) in H.
    rewrite !app_cons, !app_nil in H.
    repeat (injection H as H).
    symmetry. now apply app_cancel_r with (t := src).
  - intros [-> | [H | H]]; [reflexivity | discriminate | discriminate].
Qed.

(** C6: for a source page served by another host the site-relative case
    does not use that host. *)
Lemma normalize_src_ignores_source_host :
  normalize_src "/static/images/fox.png"
    = "https://en.wikipedia.org/static/images/fox.png" /\
  spec_normalize_src "de.wikipedia.org" "/static/images/fox.png"
    = "https://de.wikipedia.org/static/images/fox.png" /\
  normalize_src "/static/images/fox.png"
    <> spec_normalize_src "de.wikipedia.org" "/static/images/fox.png".
Proof. repeat split; try reflexivity. discriminate. Qed.

Example normalize_src_cases :
  normalize_src "//host/img.png" = "https://host/img.png" /\
  normalize_src "/w/img.png" = "https://en.wikipedia.org/w/img.png" /\
  normalize_src "http://host/img.png" = "http://host/img.png" /\
  normalize_src "img.png" = "img.png".
Proof. repeat split; reflexivity. Qed.

(** ** The Per-Entity Worker *)

Lemma truthy_url (e : entry) (u : string) :
  dict_get "wiki_url" e = PyStr u -> nonempty u = true ->
  exists c r, dict_get "wiki_url" e = PyStr (String c r) /\ u = String c r.
Proof. intros H Hu. destruct u as [|c r]; [discriminate|]. eauto. Qed.

(** Both workers up to the cache probe: a hit annotates the entry with the
    first matching file and stops, a miss goes on to the network part. *)
Lemma worker_probe (v : version) (w : world) (image_dir : string)
    (e : entry) (dir : list string) (u n : string) :
  dict_get "wiki_url" e = PyStr u -> nonempty u = true ->
  entry_name e = PyStr n ->
  run_worker (worker v w image_dir) e dir =
  match probe dir n with
  | f :: _ =>
      (mkState (<["local_image" := PyStr (PyPath.join image_dir f)]> e) dir
         [Log INFO (AlreadyExists n f)], Ok tt)
  | [] => after_miss v w image_dir n u (mkState e dir [])
  end.
Proof.
  intros Hu Hne Hn. destruct u as [|c r]; [discriminate|].
  unfold entry_name in Hn.
  destruct v; unfold run_worker, worker, download_image_from_entry,
    process_entry, bind, get_entry, listdir, probe; simpl;
    rewrite Hu, Hn; simpl;
    destruct (List.filter _ dir) as [|f rest]; reflexivity.
Qed.

(** A worker handed an entry without a source URL stops at its guard. *)
Lemma worker_guard (v : version) (w : world) (image_dir : string)
    (e : entry) (dir : list string) :
  has_url e = false ->
  run_worker (worker v w image_dir) e dir =
  (mkState e dir
     [Log (match v with ThreadPool => ERROR | Asyncio => WARNING end)
        (NoWikiUrl (entry_name e))], Ok tt).
Proof.
  unfold has_url, entry_name. intros H.
  destruct v; unfold run_worker, worker, download_image_from_entry,
    process_entry, bind, get_entry; simpl;
    destruct (dict_get "wiki_url" e) as [|[|c r]]; try discriminate;
    reflexivity.
Qed.

Lemma find_filter_head {A} (p : A -> bool) (l : list A) :
  List.find p l = head (List.filter p l).
Proof.
  induction l as [|x l IH]; simpl; [reflexivity|].
  destruct (p x); [reflexivity | exact IH].
Qed.

Lemma existsb_find {A} (p : A -> bool) (l : list A) :
  existsb p l = true -> exists x, List.find p l = Some x.
Proof.
  induction l as [|x l IH]; simpl; [discriminate|].
  destruct (p x); [eauto | exact IH].
Qed.

(** C1: when the cache directory holds a file whose name starts with the
    sanitized prefix of the entity's name, the worker of an entity with a
    source URL makes no network call, and sets [local_image] to the path
    of the first such file of the listing. *)
Theorem cache_hit_no_network (v : version) (w : world) (image_dir : string)
    (e : entry) (dir : list string) (u n : string) :
  dict_get "wiki_url" e = PyStr u -> nonempty u = true ->
  entry_name e = PyStr n ->
  existsb (fun f => startswith f (safe_name n)) dir = true ->
  exists f,
    List.find (fun f => startswith f (safe_name n)) dir = Some f /\
    let '(s, r) := run_worker (worker v w image_dir) e dir in
    r = Ok tt /\
    network_calls (st_trace s) = 0 /\
    st_entry s = <["local_image" := PyStr (PyPath.join image_dir f)]> e /\
    st_dir s = dir.
Proof.
  intros Hu Hne Hn Hex.
  destruct (existsb_find _ _ Hex) as [f Hf]. exists f. split; [exact Hf|].
  rewrite (worker_probe v w image_dir e dir u n Hu Hne Hn).
  rewrite find_filter_head in Hf. unfold probe.
  destruct (List.filter _ dir) as [|f' rest]; [discriminate|].
  injection Hf as ->. repeat split.
Qed.

Lemma cache_hit_no_network_witness :
  exists f,
    List.find (fun f => startswith f (safe_name "Fake Animal"))
      ["other.png"; "fake_animal.jpg"; "fake_animal.png"] = Some f /\
    let '(s, r) := run_worker (worker ThreadPool offline "tmp") fake_entry
                     ["other.png"; "fake_animal.jpg"; "fake_animal.png"] in
    r = Ok tt /\
    network_calls (st_trace s) = 0 /\
    st_entry s = <["local_image" := PyStr (PyPath.join "tmp" f)]> fake_entry /\
    st_dir s = ["other.png"; "fake_animal.jpg"; "fake_animal.png"].
Proof.
  apply (cache_hit_no_network ThreadPool offline "tmp" fake_entry
           ["other.png"; "fake_animal.jpg"; "fake_animal.png"]
           fake_url "Fake Animal"); vm_compute; reflexivity.
Defined.

(** The test [test_download_image_from_entry_skips_if_exists]. *)
Example skips_if_exists (v : version) :
  let '(s, r) := run_worker (worker v offline "tmp") fake_entry
                   ["other.png"; "fake_animal.jpg"] in
  r = Ok tt /\
  st_entry s !! "local_image" = Some (PyStr "tmp/fake_animal.jpg") /\
  st_trace s = [Log INFO (AlreadyExists "Fake Animal" "fake_animal.jpg")].
Proof. destruct v; vm_compute; repeat split. Qed.

Lemma startswith_empty (s : string) : startswith s "" = true.
Proof. now destruct s. Qed.

Lemma filter_all_true {A} (p : A -> bool) (l : list A) :
  (forall x, p x = true) -> List.filter p l = l.
Proof.
  intros H. induction l as [|x l IH]; simpl; [reflexivity|].
  now rewrite H, IH.
Qed.

Section Counting.

Variable p : ascii -> bool.
Hypothesis p_solid : forall c, p c = true -> is_space c = false.

Lemma p_space (c : ascii) : is_space c = true -> p c = false.
Proof.
  intros Hs. destruct (p c) eqn:E; [|reflexivity].
  apply p_solid in E. congruence.
Qed.

Lemma str_count_lstrip (s : string) :
  str_count p (lstrip s) = str_count p s.
Proof.
  induction s as [|c s IH]; simpl; [reflexivity|].
  destruct (is_space c) eqn:E; [|reflexivity].
  now rewrite IH, (p_space c E).
Qed.

Lemma str_count_rstrip (s : string) :
  str_count p (rstrip s) = str_count p s.
Proof.
  induction s as [|c s IH]; simpl; [reflexivity|].
  destruct (rstrip s) as [|d r].
  - simpl in IH. rewrite <- IH.
    destruct (is_space c) eqn:E; simpl; [now rewrite (p_space c E) | lia].
  - simpl in *. now rewrite IH.
Qed.

Lemma str_count_strip (s : string) : str_count p (strip s) = str_count p s.
Proof. unfold strip. now rewrite str_count_rstrip, str_count_lstrip. Qed.

End Counting.

Lemma str_count_filter (p : ascii -> bool) (s : string) :
  String.length (str_filter p s) = str_count p s.
Proof.
  induction s as [|c s IH]; simpl; [reflexivity|].
  destruct (p c); simpl; now rewrite IH.
Qed.

Lemma str_count_zero (p : ascii -> bool) (s : string) :
  str_count p s = 0 -> str_all (fun c => negb (p c)) s = true.
Proof.
  induction s as [|c s IH]; simpl; [reflexivity|].
  destruct (p c); simpl; [discriminate | exact IH].
Qed.

(** The sanitized prefix is at least as long as the number of kept
    characters of the name. *)
Lemma safe_name_length (n : string) :
  str_count keep_char n <= String.length (safe_name n).
Proof.
  unfold safe_name, re_sub_unsafe. rewrite str_count_filter.
  transitivity (str_count keep_char (strip (lower n))).
  - rewrite str_count_strip by apply keep_char_not_space.
    unfold lower. induction n as [|c s IH]; cbn [str_count str_map]; [lia|].
    rewrite keep_char_lower. destruct (keep_char c); lia.
  - unfold replace_char.
    induction (strip (lower n)) as [|c s IH]; cbn [str_count str_map]; [lia|].
    destruct (Ascii.eqb c " ") eqn:E.
    + apply Ascii.eqb_eq in E. subst c.
      change (keep_char "_"%char) with true.
      change (keep_char " "%char) with false. cbv iota. lia.
    + destruct (keep_char c); lia.
Qed.

(** C10: an entity whose name sanitizes to the empty string holds no
    character the codec keeps; the prefix filter of the probe then matches
    every file, so that with a non-empty cache directory the worker makes
    no network call and sets [local_image] to the first file of the
    listing, whatever entity stored it. *)
Theorem empty_prefix_takes_any_file (v : version) (w : world)
    (image_dir : string) (e : entry) (f : string) (rest : list string)
    (u n : string) :
  dict_get "wiki_url" e = PyStr u -> nonempty u = true ->
  entry_name e = PyStr n ->
  safe_name n = "" ->
  str_all (fun c => negb (keep_char c)) n = true /\
  probe (f :: rest) n = f :: rest /\
  let '(s, r) := run_worker (worker v w image_dir) e (f :: rest) in
  r = Ok tt /\
  network_calls (st_trace s) = 0 /\
  st_entry s = <["local_image" := PyStr (PyPath.join image_dir f)]> e.
Proof.
  intros Hu Hne Hn Hsafe.
  assert (Hp : probe (f :: rest) n = f :: rest).
  { unfold probe. rewrite Hsafe. apply filter_all_true, startswith_empty. }
  split; [|split; [exact Hp|]].
  - apply str_count_zero. generalize (safe_name_length n).
    rewrite Hsafe. simpl. lia.
  - rewrite (worker_probe v w image_dir e (f :: rest) u n Hu Hne Hn), Hp.
    repeat split.
Qed.

Lemma empty_prefix_takes_any_file_witness :
  str_all (fun c => negb (keep_char c)) "???" = true /\
  probe ["red_fox.jpg"; "zebra.png"] "???" = ["red_fox.jpg"; "zebra.png"] /\
  let '(s, r) := run_worker (worker Asyncio offline "tmp") odd_entry
                   ["red_fox.jpg"; "zebra.png"] in
  r = Ok tt /\
  network_calls (st_trace s) = 0 /\
  st_entry s = <["local_image" := PyStr (PyPath.join "tmp" "red_fox.jpg")]> odd_entry.
Proof.
  apply (empty_prefix_takes_any_file Asyncio offline "tmp" odd_entry
           "red_fox.jpg" ["zebra.png"] fake_url "???"); vm_compute; reflexivity.
Defined.

Example odd_entry_takes_red_fox (v : version) :
  st_entry (fst (run_worker (worker v offline "tmp") odd_entry
                   ["red_fox.jpg"; "zebra.png"])) !! "local_image"
  = Some (PyStr "tmp/red_fox.jpg").
Proof. destruct v; vm_compute; reflexivity. Qed.

Ltac unfold_miss :=
  unfold after_miss, try_except, sync_try_block, async_section,
    fetch_html, download_image, requests_get, raise_for_status, iter_content,
    call_sanitize_filename, path_exists, others_write, open_wb, set_item,
    log, emit, bind, ret, raise;
  simpl.

(** Case analysis on the next thing a worker inspects.  A test of a
    branch not yet taken is under the binder of that branch and comes up
    once the branch is entered; the clauses are tried in the order in
    which a branch makes its tests. *)
Ltac status_test :=
  match goal with
  | |- context [bad_status ?x] => destruct (bad_status x) eqn:?Hbad
  | |- context [(status ?x =? 200)%Z] =>
      destruct (status x =? 200)%Z eqn:?Hstatus
  end; simpl.

Ltac text_test :=
  match goal with
  | |- context [text ?x] => destruct (text x) as [|?c ?t] eqn:?Htext
  end; simpl.

Ltac next_test :=
  match goal with
  | |- context [sync_locate ?d] =>
      destruct (sync_locate d) as [?img_url|] eqn:?Hloc
  | |- context [extract_image_url ?d] =>
      destruct (extract_image_url d) as [[|?c' ?img_url]|] eqn:?Hloc
  | |- context [urlparse_raises ?w ?x] =>
      destruct (urlparse_raises w x) eqn:?Hparse
  | |- context [exists_in ?a ?b ?c] =>
      destruct (exists_in a b c) eqn:?Hthere
  | |- context [http_get ?w ?x] =>
      destruct (http_get w x) as [|?r] eqn:?Hget
  | |- context [is_dot_name ?f] => destruct (is_dot_name f) eqn:?Hdot
  | |- context [can_create ?w ?f] => destruct (can_create w f) eqn:?Hcreate
  | |- context [body_ok ?x] => destruct (body_ok x) eqn:?Hbody
  end; simpl.

(** Walks the thread-pool worker after a cache miss down to its ends. *)
Ltac walk_thread_pool :=
  unfold_miss; repeat first [status_test | next_test].

(** The same for the asyncio worker, which also tests the page text. *)
Ltac walk_asyncio :=
  unfold_miss; repeat first [status_test | text_test | next_test].

(** After a cache miss the thread-pool worker does not raise, whatever
    the network, the page and the file system do: all of it is inside the
    [try]. *)
Lemma thread_pool_after_miss_returns (w : world) (image_dir n u : string)
    (s : state) :
  snd (after_miss ThreadPool w image_dir n u s) = Ok tt.
Proof. walk_thread_pool; reflexivity. Qed.

(** After a cache miss the asyncio worker returns normally, or lets out
    the [ValueError] of a reference [urlparse] rejects. *)
Lemma asyncio_after_miss_outcome (w : world) (image_dir n u : string)
    (s : state) :
  snd (after_miss Asyncio w image_dir n u s) = Ok tt
  \/ exists img_url,
       urlparse_raises w img_url = true /\
       snd (after_miss Asyncio w image_dir n u s) = Raise (ValueError img_url).
Proof.
  walk_asyncio; first [now left | right; eexists; split; [eassumption | reflexivity]].
Qed.

(** The thread-pool worker returns normally on every entry whose name is
    a string. *)
Lemma thread_pool_returns (w : world) (image_dir : string)
    (e : entry) (dir : list string) (n : string) :
  entry_name e = PyStr n ->
  snd (run_worker (worker ThreadPool w image_dir) e dir) = Ok tt.
Proof.
  intros Hn. destruct (has_url e) eqn:Hu.
  - unfold has_url in Hu.
    destruct (dict_get "wiki_url" e) as [|u] eqn:E; [discriminate|].
    rewrite (worker_probe ThreadPool w image_dir e dir u n E Hu Hn).
    destruct (probe dir n); [apply thread_pool_after_miss_returns | reflexivity].
  - now rewrite worker_guard.
Qed.

(** C2: the picture of the page has the reference
    [//[upload.wikimedia.org/fox.jpg], which [urlparse] rejects for its
    lone square bracket.  The thread-pool worker recovers: the
    [ValueError] is caught and logged, the worker returns and the entry
    is what it was.  The asyncio worker calls [sanitize_filename] outside
    any [try]: the [ValueError] leaves [process_entry]. *)
Theorem asyncio_worker_lets_value_error_out :
  parse_html (world_showing bracket_src) (html_with_src bracket_src)
    = doc_with_src bracket_src /\
  sync_locate (doc_with_src bracket_src) = Some ("https:" +:+ bracket_src) /\
  extract_image_url (doc_with_src bracket_src) = Some ("https:" +:+ bracket_src) /\
  PyPath.url_netloc ("https:" +:+ bracket_src) = "[upload.wikimedia.org" /\
  (forall w, urlparse_raises w ("https:" +:+ bracket_src) = true) /\
  run_worker (download_image_from_entry (world_showing bracket_src) "tmp")
    fake_entry []
  = (mkState fake_entry []
       [Get fake_url;
        Log ERROR (ErrorDownloading "Fake Animal"
                     (ValueError ("https:" +:+ bracket_src)))],
     Ok tt) /\
  run_worker (process_entry (world_showing bracket_src) "tmp") fake_entry []
  = (mkState fake_entry [] [Get fake_url],
     Raise (ValueError ("https:" +:+ bracket_src))).
Proof. repeat split; vm_compute; reflexivity. Qed.

(** The failures a worker recovers from, in both versions: the page
    cannot be fetched, the page shows no picture, the transfer of the
    picture breaks, the file system refuses the destination. *)
Example recovered_failures (v : version) :
  run_worker (worker v offline "tmp") fake_entry []
  = (mkState fake_entry []
       [Get fake_url;
        Log ERROR
          (match v with
           | ThreadPool =>
               ErrorDownloading "Fake Animal" (RequestException fake_url)
           | Asyncio => FetchException fake_url
           end)], Ok tt) /\
  (let '(s, r) :=
     run_worker
       (worker v (mkWorld (http_get (fake_world [])) (fun _ => []) []
                    (fun _ => true) (fun _ => true)) "tmp") fake_entry [] in
   r = Ok tt /\ st_entry s = fake_entry /\ st_dir s = [] /\
   network_calls (st_trace s) = 1) /\
  (let '(s, r) := run_worker (worker v broken_image_world "tmp") fake_entry [] in
   r = Ok tt /\ st_entry s = fake_entry /\ st_dir s = ["fake_animal.jpg"] /\
   network_calls (st_trace s) = 2) /\
  (let '(s, r) :=
     run_worker
       (worker v (mkWorld (http_get (fake_world [])) (parse_html (fake_world []))
                    [] (fun _ => true) (fun _ => false)) "tmp") fake_entry [] in
   r = Ok tt /\ st_entry s = fake_entry /\ st_dir s = [] /\
   network_calls (st_trace s) = 2).
Proof. destruct v; repeat split; vm_compute; reflexivity. Qed.

(** What each version leaves behind when the image transfer breaks: the
    entry untouched, the destination file created. *)
Example broken_image_run (v : version) :
  let '(s, r) := run_worker (worker v broken_image_world "tmp") fake_entry [] in
  r = Ok tt /\
  st_entry s !! "local_image" = None /\
  st_dir s = ["fake_animal.jpg"] /\
  filter (fun ev => is_get ev = true) (st_trace s) = [Get fake_url; Get fake_img_url].
Proof. destruct v; vm_compute; repeat split. Qed.

(** The test [test_end_to_end_image_download]. *)
Example end_to_end (v : version) :
  let '(s, r) := run_worker (worker v (fake_world []) "tmp") fake_entry [] in
  r = Ok tt /\
  st_entry s !! "local_image" = Some (PyStr "tmp/fake_animal.jpg") /\
  st_dir s = ["fake_animal.jpg"] /\
  filter (fun ev => is_get ev = true) (st_trace s) = [Get fake_url; Get fake_img_url].
Proof. destruct v; vm_compute; repeat split. Qed.

(** A name that is [None] makes both workers raise, before any [try]. *)
Example none_name_raises (v : version) :
  snd (run_worker (worker v offline "tmp")
         (<["name" := PyNone]> fake_entry) []) = Raise AttributeError.
Proof. destruct v; vm_compute; reflexivity. Qed.

(** The asyncio worker looks again once the image is located: when the
    destination is there, it annotates the entry and fetches nothing
    more. *)
Lemma async_recheck_skips_download (w : world) (image_dir : string)
    (e : entry) (dir : list string) (u n html img_url : string) :
  dict_get "wiki_url" e = PyStr u -> nonempty u = true ->
  entry_name e = PyStr n ->
  probe dir n = [] ->
  page_of Asyncio w u = Some html ->
  located Asyncio (parse_html w html) = Some img_url ->
  urlparse_raises w img_url = false ->
  rechecked Asyncio w image_dir dir n img_url = true ->
  run_worker (process_entry w image_dir) e dir =
  (mkState
     (<["local_image" := PyStr (PyPath.join image_dir (sanitize_filename n img_url))]> e)
     (dir_after_others w dir)
     [Get u; Log INFO (CachedPostScrape n)], Ok tt).
Proof.
  intros Hu Hne Hn Hmiss Hpage Hloc Hparse Hre.
  change (process_entry w image_dir) with (worker Asyncio w image_dir).
  rewrite (worker_probe Asyncio w image_dir e dir u n Hu Hne Hn), Hmiss.
  unfold page_of in Hpage. unfold located in Hloc. unfold rechecked in Hre.
  unfold_miss.
  destruct (http_get w u) as [|r]; [discriminate|]. simpl.
  destruct (status r =? 200)%Z; [|discriminate]. simpl in *.
  destruct (text r) as [|c t]; [discriminate|]. simpl in *.
  injection Hpage as <-.
  destruct (extract_image_url _) as [[|c' i]|]; try discriminate.
  injection Hloc as <-. simpl. rewrite Hparse. simpl. now rewrite Hre.
Qed.

(** C7: another worker stores [fake_animal.jpg] while the page is being
    fetched.  The asyncio worker finds the destination and stops after
    one GET; the thread-pool worker does not look and fetches the image
    again. *)
Theorem sync_worker_never_rechecks :
  probe [] "Fake Animal" = [] /\
  sync_locate (parse_html (fake_world ["fake_animal.jpg"]) fake_html)
    = Some fake_img_url /\
  exists_in "tmp" (dir_after_others (fake_world ["fake_animal.jpg"]) [])
    (PyPath.join "tmp" (sanitize_filename "Fake Animal" fake_img_url)) = true /\
  st_trace (fst (run_worker
                   (process_entry (fake_world ["fake_animal.jpg"]) "tmp")
                   fake_entry []))
    = [Get fake_url; Log INFO (CachedPostScrape "Fake Animal")] /\
  st_trace (fst (run_worker
                   (download_image_from_entry (fake_world ["fake_animal.jpg"]) "tmp")
                   fake_entry []))
    = [Get fake_url;
       Log INFO (Downloading "Fake Animal" fake_img_url);
       Get fake_img_url;
       Log INFO (Downloaded "Fake Animal" "fake_animal.jpg")].
Proof. repeat split; vm_compute; reflexivity. Qed.

(** ** The batch operation *)

Lemma count_occ_filter (p : entry -> bool) (l : list entry) (e : entry) :
  count_occ (decide_rel eq) (List.filter p l) e
  = if p e then count_occ (decide_rel eq) l e else 0.
Proof.
  induction l as [|x l IH]; simpl; [now destruct (p e)|].
  destruct (p x) eqn:Ex; simpl.
  - destruct (decide_rel eq x e) as [->|Hne].
    + rewrite Ex in *. now rewrite IH.
    + exact IH.
  - destruct (decide_rel eq x e) as [->|Hne].
    + now rewrite Ex in *.
    + exact IH.
Qed.

(** What each batch schedules: the asyncio batch creates a task for
    exactly the entities carrying a source URL, one per occurrence; the
    thread-pool batch hands every entity to a worker, one invocation per
    occurrence, and the worker of an entity without a source URL stops at
    its own guard, the entry and the cache directory untouched and no
    network call made. *)
Lemma batch_schedules (m : mapping) (e : entry) (w : world)
    (image_dir : string) (dir : list string) :
  count_occ (decide_rel eq) (async_scheduled m) e
    = (if has_url e then count_occ (decide_rel eq) (all_entries m) e else 0) /\
  Forall (fun x => has_url x = true) (async_scheduled m) /\
  count_occ (decide_rel eq) (sync_scheduled m) e
    = count_occ (decide_rel eq) (all_entries m) e /\
  (if has_url e then True
   else run_worker (download_image_from_entry w image_dir) e dir
        = (mkState e dir [Log ERROR (NoWikiUrl (entry_name e))], Ok tt)).
Proof.
  repeat split.
  - apply count_occ_filter.
  - unfold async_scheduled. apply List.Forall_forall.
    intros x Hx. now apply List.filter_In in Hx.
  - destruct (has_url e) eqn:Hu; [exact I|].
    exact (worker_guard ThreadPool w image_dir e dir Hu).
Qed.

(** C3: a mapping with an entity that has no source URL.  The asyncio
    batch filters it out, as the specification says; the thread-pool
    batch schedules a worker for it, which stops at its guard. *)
Theorem sync_batch_schedules_unlinked :
  has_url unlinked_entry = false /\
  spec_scheduled [("simian", [unlinked_entry; fake_entry])] = [fake_entry] /\
  async_scheduled [("simian", [unlinked_entry; fake_entry])] = [fake_entry] /\
  sync_scheduled [("simian", [unlinked_entry; fake_entry])]
    = [unlinked_entry; fake_entry] /\
  sync_scheduled [("simian", [unlinked_entry; fake_entry])]
    <> spec_scheduled [("simian", [unlinked_entry; fake_entry])] /\
  run_worker (download_image_from_entry offline "tmp") unlinked_entry []
  = (mkState unlinked_entry [] [Log ERROR (NoWikiUrl (PyStr "Yeti"))], Ok tt).
Proof.
  repeat split; try (vm_compute; reflexivity).
  intros H. apply (f_equal length) in H. vm_compute in H. discriminate.
Qed.

(** ** The Concurrency Orchestrator *)

Lemma count_if_insert (f : phase -> bool) (l : list phase) (i : nat)
    (p q : phase) :
  l !! i = Some p ->
  count_if f (<[i := q]> l) + (if f p then 1 else 0)
  = count_if f l + (if f q then 1 else 0).
Proof.
  revert i. induction l as [|x l IH]; intros [|i] H; simpl in *;
    try discriminate.
  - injection H as ->. lia.
  - specialize (IH i H). lia.
Qed.

Lemma count_if_le (f g : phase -> bool) (l : list phase) :
  (forall p, f p = true -> g p = true) -> count_if f l <= count_if g l.
Proof.
  intros H. induction l as [|x l IH]; simpl; [lia|].
  destruct (f x) eqn:E; [rewrite (H _ E)|destruct (g x)]; lia.
Qed.

Lemma forallb_lookup (l : list phase) (i : nat) (p : phase) :
  forallb is_done l = true -> l !! i = Some p -> p = Done.
Proof.
  revert i. induction l as [|x l IH]; intros [|i] Hall H; simpl in *;
    try discriminate; apply andb_prop in Hall as [Hx Hl].
  - injection H as <-. now destruct x.
  - now apply (IH i).
Qed.

Section Budget.

Variable moves : phase -> phase -> bool.
Variable holds : phase -> bool.
Hypothesis fetching_holds : forall p, fetching p = true -> holds p = true.
Hypothesis done_is_final : forall q, moves Done q = false.

Lemma step_balanced (limit n : nat) (s s' : pool) (a : action) :
  balanced holds limit n s -> step moves holds s a = Some s' ->
  balanced holds limit n s'.
Proof.
  intros (Hsum & Hlen & Hret) Hstep. destruct a as [i next|]; simpl in Hstep.
  - destruct (tasks s !! i) as [p|] eqn:Hi; [|discriminate].
    destruct (moves p next) eqn:Hm; [|discriminate].
    assert (Hrun : returned s = false).
    { destruct (returned s) eqn:R; [|reflexivity].
      rewrite (forallb_lookup _ _ _ (Hret eq_refl) Hi), done_is_final in Hm.
      discriminate. }
    pose proof (count_if_insert holds (tasks s) i p next Hi) as Hc.
    destruct (holds p) eqn:Hp, (holds next) eqn:Hq; simpl in Hstep;
      try (destruct (permits s) as [|k] eqn:Hk; [discriminate|]);
      injection Hstep as <-; unfold balanced; simpl;
      rewrite length_insert, Hrun; repeat split; try lia; discriminate.
  - destruct (forallb is_done (tasks s)) eqn:Hall; [|discriminate].
    destruct (returned s); simpl in Hstep; [discriminate|].
    injection Hstep as <-. unfold balanced; simpl. auto.
Qed.

Lemma run_balanced (limit n : nat) (schedule : list action) (s s' : pool) :
  balanced holds limit n s -> run moves holds schedule s = Some s' ->
  balanced holds limit n s'.
Proof.
  revert s. induction schedule as [|a rest IH]; intros s Hs Hrun;
    simpl in Hrun.
  - now injection Hrun as <-.
  - destruct (step moves holds s a) as [s1|] eqn:E; [|discriminate].
    eapply IH; [eapply step_balanced|]; eassumption.
Qed.

Lemma balanced_in_flight (limit n : nat) (s : pool) :
  balanced holds limit n s -> in_flight s <= limit.
Proof.
  intros (Hsum & _ & _). unfold in_flight.
  pose proof (count_if_le fetching holds (tasks s) fetching_holds). lia.
Qed.

End Budget.

Lemma count_if_replicate (f : phase -> bool) (n : nat) (p : phase) :
  f p = false -> count_if f (replicate n p) = 0.
Proof. intros H. induction n as [|n IH]; simpl; [reflexivity | now rewrite H]. Qed.

Lemma init_balanced (v : version) (limit n : nat) :
  balanced (holds_of v) limit n (init v limit n).
Proof.
  destruct v; unfold balanced, init, sync_init, async_init; simpl;
    rewrite count_if_replicate by reflexivity;
    rewrite length_replicate; repeat split; try lia; discriminate.
Qed.

(** C4: in every state the batch can reach, whatever the number of
    entities and the schedule, at most [limit] Fetch Client calls are
    executing; and once the batch call has returned every scheduled
    worker is done. *)
Theorem budget_never_exceeded (v : version) (limit n : nat)
    (schedule : list action) (s : pool) :
  run_batch v schedule limit n = Some s ->
  in_flight s <= limit /\
  length (tasks s) = n /\
  (returned s = true -> forallb is_done (tasks s) = true).
Proof.
  intros Hrun.
  assert (Hb : balanced (holds_of v) limit n s).
  { apply run_balanced with (moves := moves_of v) (schedule := schedule)
      (s := init v limit n).
    - now destruct v; intros [].
    - apply init_balanced.
    - exact Hrun. }
  split; [|exact (proj2 Hb)].
  apply balanced_in_flight with (holds := holds_of v) (n := n); [|exact Hb].
  now destruct v; intros [].
Qed.

Lemma budget_never_exceeded_witness :
  in_flight (mkPool 0 [Done; FetchingImage; FetchingPage; Started] false) <= 2 /\
  length (tasks (mkPool 0 [Done; FetchingImage; FetchingPage; Started] false)) = 4 /\
  (returned (mkPool 0 [Done; FetchingImage; FetchingPage; Started] false) = true ->
   forallb is_done
     (tasks (mkPool 0 [Done; FetchingImage; FetchingPage; Started] false)) = true).
Proof.
  apply (budget_never_exceeded Asyncio 2 4
           (full_run Asyncio 0 ++ to_page_fetch Asyncio 1
            ++ [Move 1 FetchingImage] ++ to_page_fetch Asyncio 2)).
  vm_compute. reflexivity.
Defined.

(** With the budget used up, the next worker cannot start a fetch, in
    either version. *)
Example budget_blocks (v : version) :
  match run_batch v (flat_map (to_page_fetch v) (seq 0 10)) 10 100 with
  | Some s =>
      in_flight s = 10 /\ permits s = 0 /\
      run (moves_of v) (holds_of v) (to_page_fetch v 10) s = None
  | None => False
  end.
Proof. destruct v; vm_compute; repeat split. Qed.

(** The batch cannot return while a worker is still running, and returns
    once all are done. *)
Example batch_waits (v : version) :
  run_batch v (full_run v 0 ++ to_page_fetch v 1 ++ [Return]) 1 2 = None /\
  option_map returned
    (run_batch v (full_run v 0 ++ full_run v 1 ++ [Return]) 1 2) = Some true.
Proof. destruct v; split; vm_compute; reflexivity. Qed.

Open Scope list_scope.

Lemma insert_middle (pre rest : list phase) (x y : phase) :
  <[length pre := y]> (pre ++ x :: rest) = pre ++ y :: rest.
Proof. induction pre as [|z pre IH]; simpl; [reflexivity | now rewrite IH]. Qed.

Lemma step_move (moves : phase -> phase -> bool) (holds : phase -> bool)
    (k : nat) (pre rest : list phase) (x y : phase) (r : bool) :
  step moves holds (mkPool k (pre ++ x :: rest) r) (Move (length pre) y) =
  if moves x y then
    if negb (holds x) && holds y then
      match k with
      | O => None
      | S k' => Some (mkPool k' (pre ++ y :: rest) r)
      end
    else if holds x && negb (holds y)
         then Some (mkPool (S k) (pre ++ y :: rest) r)
         else Some (mkPool k (pre ++ y :: rest) r)
  else None.
Proof.
  unfold step. cbn [tasks permits returned].
  rewrite list_lookup_middle by reflexivity. now rewrite insert_middle.
Qed.

Lemma run_app (moves : phase -> phase -> bool) (holds : phase -> bool)
    (a b : list action) (s : pool) :
  run moves holds (a ++ b) s =
  match run moves holds a s with
  | Some s' => run moves holds b s'
  | None => None
  end.
Proof.
  revert s. induction a as [|x a IH]; intros s; simpl; [reflexivity|].
  destruct (step moves holds s x); [apply IH | reflexivity].
Qed.

(** With one free unit a worker can run from top to bottom. *)
Lemma full_run_completes (v : version) (k : nat) (pre rest : list phase) :
  run (moves_of v) (holds_of v) (full_run v (length pre))
    (mkPool (S k) (pre ++ first_phase v :: rest) false)
  = Some (mkPool (S k) (pre ++ Done :: rest) false).
Proof.
  destruct v; unfold full_run, to_page_fetch;
    cbn [app moves_of holds_of first_phase];
    repeat (cbn [run]; rewrite step_move;
            cbn [sync_moves sync_holds async_moves async_holds negb andb]);
    reflexivity.
Qed.

Lemma one_by_one_runs (v : version) (k n : nat) (pre : list phase) :
  run (moves_of v) (holds_of v)
    (flat_map (full_run v) (seq (length pre) n))
    (mkPool (S k) (pre ++ replicate n (first_phase v)) false)
  = Some (mkPool (S k) (pre ++ replicate n Done) false).
Proof.
  revert pre. induction n as [|n IH]; intros pre; [reflexivity|].
  cbn [seq flat_map replicate].
  rewrite run_app, full_run_completes.
  replace (pre ++ Done :: replicate n (first_phase v))
    with ((pre ++ [Done]) ++ replicate n (first_phase v))
    by now rewrite <- List.app_assoc.
  replace (S (length pre)) with (length (pre ++ [Done]))
    by (rewrite length_app; simpl; lia).
  rewrite IH. now rewrite <- List.app_assoc.
Qed.

Lemma forallb_replicate_done (n : nat) :
  forallb is_done (replicate n Done) = true.
Proof. induction n as [|n IH]; simpl; [reflexivity | exact IH]. Qed.

(** X25: with a budget of at least one unit the batch can always run to its
    end, whatever the number of entities: every worker done, the budget
    given back in full. *)
Lemma batch_can_complete (v : version) (limit n : nat) :
  0 < limit ->
  run_batch v (one_by_one v n) limit n
  = Some (mkPool limit (replicate n Done) true).
Proof.
  intros Hpos. destruct limit as [|k]; [lia|].
  unfold run_batch, one_by_one. rewrite run_app.
  assert (Hinit : init v (S k) n
                  = mkPool (S k) ([] ++ replicate n (first_phase v)) false)
    by now destruct v.
  rewrite Hinit.
  change 0 with (length (@nil phase)).
  rewrite (one_by_one_runs v k n []).
  cbn [app run step tasks returned permits negb andb].
  now rewrite forallb_replicate_done.
Qed.

(** * Further properties of the code *)

Open Scope string_scope.

(** ** File names and destinations *)

Lemma contains_char_all (p : ascii -> bool) (c : ascii) (s : string) :
  str_all p s = true -> p c = false -> PyPath.contains_char c s = false.
Proof.
  intros Hs Hc. induction s as [|x r IH]; [reflexivity|].
  cbn [str_all] in Hs. apply andb_prop in Hs as [Hx Hr].
  cbn [PyPath.contains_char]. rewrite (IH Hr), orb_false_r.
  destruct (Ascii.eqb x c) eqn:E; [|reflexivity].
  apply Ascii.eqb_eq in E. subst x. congruence.
Qed.

Lemma contains_char_app (c : ascii) (s t : string) :
  PyPath.contains_char c (s +:+ t)
  = PyPath.contains_char c s || PyPath.contains_char c t.
Proof.
  induction s as [|x r IH]; [reflexivity|].
  rewrite app_cons. cbn [PyPath.contains_char]. now rewrite IH, orb_assoc.
Qed.

Lemma basename_no_slash (p : string) :
  PyPath.contains_char "/" (PyPath.basename p) = false.
Proof.
  induction p as [|x r IH]; [reflexivity|].
  cbn [PyPath.basename].
  destruct (PyPath.contains_char "/" r) eqn:Er; [exact IH|].
  destruct (Ascii.eqb x "/") eqn:Ex; [exact Er|].
  cbn [PyPath.contains_char]. now rewrite Ex, Er.
Qed.

Lemma rsplit_dot_parts (s pre ext : string) :
  PyPath.rsplit_dot s = Some (pre, ext) ->
  s = pre +:+ ext /\
  exists rest, ext = String "." rest /\ PyPath.contains_char "." rest = false.
Proof.
  revert pre ext. induction s as [|x r IH]; intros pre ext H; [discriminate|].
  cbn [PyPath.rsplit_dot] in H.
  destruct (PyPath.rsplit_dot r) as [[pre' ext']|] eqn:Er.
  - injection H as <- <-. destruct (IH pre' ext' eq_refl) as [-> Hrest].
    split; [reflexivity | exact Hrest].
  - destruct (Ascii.eqb x ".") eqn:Ex; [|discriminate].
    injection H as <- <-. apply Ascii.eqb_eq in Ex. subst x.
    split; [reflexivity|]. exists r. split; [reflexivity|].
    clear IH. induction r as [|y t IHt]; [reflexivity|].
    cbn [PyPath.rsplit_dot] in Er. cbn [PyPath.contains_char].
    destruct (PyPath.rsplit_dot t) as [[? ?]|]; [discriminate|].
    destruct (Ascii.eqb y "."); [discriminate|]. now apply IHt.
Qed.

(** The extension is empty, or a dot followed by characters that are
    neither dots nor slashes. *)
Lemma splitext_ext_shape (p : string) :
  PyPath.splitext_ext p = "" \/
  exists rest, PyPath.splitext_ext p = String "." rest /\
               PyPath.contains_char "/" rest = false /\
               PyPath.contains_char "." rest = false.
Proof.
  unfold PyPath.splitext_ext.
  destruct (PyPath.rsplit_dot (PyPath.basename p)) as [[pre ext]|] eqn:E;
    [|now left].
  destruct (str_all _ pre); [now left|]. right.
  destruct (rsplit_dot_parts _ _ _ E) as [Hs (rest & -> & Hdot)].
  exists rest. repeat split; [|exact Hdot].
  pose proof (basename_no_slash p) as Hb. rewrite Hs in Hb.
  rewrite contains_char_app in Hb. apply orb_false_elim in Hb as [_ Hb].
  cbn [PyPath.contains_char] in Hb. now apply orb_false_elim in Hb.
Qed.

Lemma safe_name_no_slash (n : string) :
  PyPath.contains_char "/" (safe_name n) = false.
Proof.
  apply contains_char_all with (p := keep_char); [|reflexivity].
  generalize (safe_name_settled n). apply str_all_impl.
  unfold settled. now intros c [Hc _]%andb_prop.
Qed.

Lemma startswith_no_slash (s : string) :
  PyPath.contains_char "/" s = false -> startswith s "/" = false.
Proof.
  destruct s as [|x r]; [reflexivity|].
  cbn [PyPath.contains_char startswith]. intros [H _]%orb_false_elim.
  now rewrite Ascii.eqb_sym, H.
Qed.

Lemma safe_name_no_dot (n : string) :
  PyPath.contains_char "." (safe_name n) = false.
Proof.
  apply contains_char_all with (p := keep_char); [|reflexivity].
  generalize (safe_name_settled n). apply str_all_impl.
  unfold settled. now intros c [Hc _]%andb_prop.
Qed.

(** The shape of a file name: the prefix, a dot, and an extension without
    dot or slash, which is [jpg] when the path of the URL has none. *)
Lemma filename_shape (name url : string) :
  exists ext,
    sanitize_filename name url = safe_name name +:+ String "." ext /\
    PyPath.contains_char "/" ext = false /\
    PyPath.contains_char "." ext = false.
Proof.
  unfold sanitize_filename.
  destruct (splitext_ext_shape (PyPath.url_path url))
    as [-> | (rest & -> & Hs & Hd)].
  - exists "jpg". repeat split.
  - exists rest. repeat split; assumption.
Qed.

Lemma filename_prefix_no_slash (name url : string) :
  startswith (sanitize_filename name url) (safe_name name) = true /\
  PyPath.contains_char "/" (sanitize_filename name url) = false.
Proof.
  destruct (filename_shape name url) as (ext & Heq & Hs & _). rewrite Heq.
  split.
  - apply startswith_app.
  - rewrite contains_char_app, safe_name_no_slash.
    cbn [PyPath.contains_char orb]. exact Hs.
Qed.

(** A file name is never [".."]. *)
Lemma filename_not_dotdot (name url : string) :
  sanitize_filename name url <> "..".
Proof.
  destruct (filename_shape name url) as (ext & Heq & _ & Hd).
  rewrite Heq. pose proof (safe_name_no_dot name) as Hn.
  destruct (safe_name name) as [|c r].
  - rewrite app_nil. intros [= ->]. discriminate.
  - rewrite app_cons. intros [= -> _]. discriminate.
Qed.

(** It is ["."] when there is no prefix and the extension is a lone dot,
    and then only. *)
Lemma filename_dot (name url : string) :
  sanitize_filename name url = "."
  <-> safe_name name = "" /\ PyPath.splitext_ext (PyPath.url_path url) = ".".
Proof.
  split.
  - intros H. assert (Hsafe : safe_name name = "").
    { destruct (filename_shape name url) as (ext & Heq & _).
      rewrite Heq in H. pose proof (safe_name_no_dot name) as Hn.
      destruct (safe_name name) as [|c r]; [reflexivity|].
      rewrite app_cons in H. injection H as -> _. discriminate. }
    split; [exact Hsafe|].
    unfold sanitize_filename in H. rewrite Hsafe, app_nil in H.
    destruct (PyPath.splitext_ext (PyPath.url_path url)) as [|c r];
      [discriminate | exact H].
  - intros [Hsafe Hext]. unfold sanitize_filename. now rewrite Hsafe, Hext.
Qed.

(** X1: the file name [sanitize_filename] returns is the sanitized prefix
    followed by a dot and an extension that holds neither dot nor slash,
    [.jpg] when the path of the URL has no extension.  It holds no slash,
    so [os.path.join] puts it as one path component after the cache
    directory.  That component is never [".."]; it is ["."], the cache
    directory itself and not a file in it, exactly when the prefix is
    empty and the extension is a lone dot. *)
Theorem sanitize_filename_inside_cache_dir (image_dir name url : string) :
  (exists ext,
      sanitize_filename name url = safe_name name +:+ String "." ext /\
      PyPath.contains_char "." ext = false /\
      PyPath.contains_char "/" ext = false) /\
  (PyPath.splitext_ext (PyPath.url_path url) = "" ->
   sanitize_filename name url = safe_name name +:+ ".jpg") /\
  startswith (sanitize_filename name url) (safe_name name) = true /\
  PyPath.contains_char "/" (sanitize_filename name url) = false /\
  PyPath.join image_dir (sanitize_filename name url)
  = (if negb (nonempty image_dir) || PyPath.endswith_char "/" image_dir
     then image_dir +:+ sanitize_filename name url
     else image_dir +:+ "/" +:+ sanitize_filename name url) /\
  sanitize_filename name url <> ".." /\
  (sanitize_filename name url = "."
   <-> safe_name name = "" /\ PyPath.splitext_ext (PyPath.url_path url) = ".").
Proof.
  destruct (filename_shape name url) as (ext & Heq & Hs & Hd).
  destruct (filename_prefix_no_slash name url) as [Hpre Hno].
  split; [exists ext; now repeat split|].
  split; [intros H; unfold sanitize_filename; now rewrite H|].
  split; [exact Hpre|]. split; [exact Hno|].
  split; [unfold PyPath.join; now rewrite (startswith_no_slash _ Hno)|].
  split; [apply filename_not_dotdot | apply filename_dot].
Qed.

(** The destination of an entity named ["???"] whose picture has a path
    ending in a dot is the cache directory. *)
Example dot_destination :
  sanitize_filename "Red Fox" "https://upload.wikimedia.org/a/Fox.PNG?x=1" = "red_fox.PNG" /\
  sanitize_filename "Red Fox" "https://upload.wikimedia.org/a/fox" = "red_fox.jpg" /\
  sanitize_filename "???" ("https:" +:+ dot_src) = "." /\
  PyPath.join "tmp" (sanitize_filename "???" ("https:" +:+ dot_src)) = "tmp/.".
Proof. repeat split; vm_compute; reflexivity. Qed.

(** ** The locators *)

(** Induction over a tree and the list of its children. *)
Lemma node_nested_ind (P : node -> Prop) :
  (forall s, P (NText s)) ->
  (forall t cl a ch, List.Forall P ch -> P (NElem t cl a ch)) ->
  forall n, P n.
Proof.
  intros Htext Helem. fix IH 1. intros [s|t cl a ch].
  - apply Htext.
  - apply Helem. induction ch as [|x r IHr]; constructor; [apply IH | exact IHr].
Qed.

Lemma find_forest_cons (p : node -> bool) (x : node) (r : list node) :
  Bs4.find_forest p (x :: r)
  = match Bs4.find_from p x with
    | Some y => Some y
    | None => Bs4.find_forest p r
    end.
Proof. reflexivity. Qed.

Lemma find_from_elem (p : node -> bool) (n : node) :
  Bs4.find_from p n
  = if p n then Some n else Bs4.find_forest p (Bs4.children n).
Proof.
  destruct n as [s|t cl a ch]; cbn [Bs4.find_from Bs4.children].
  - now destruct (p (NText s)).
  - destruct (p (NElem t cl a ch)); [reflexivity|].
    induction ch as [|x r IH]; [reflexivity|].
    rewrite find_forest_cons. destruct (Bs4.find_from p x); [reflexivity | exact IH].
Qed.

(** Whatever [find] returns satisfies the filter it was given. *)
Lemma find_from_sound (p : node -> bool) (n y : node) :
  Bs4.find_from p n = Some y -> p y = true.
Proof.
  revert y. induction n as [s|t cl a ch IH] using node_nested_ind; intros y;
    rewrite find_from_elem; cbn [Bs4.children].
  - destruct (p (NText s)) eqn:E; [|discriminate]. now intros [= <-].
  - destruct (p (NElem t cl a ch)) eqn:E; [now intros [= <-]|]. clear E.
    induction IH as [|x r Hx _ IHr]; [discriminate|].
    rewrite find_forest_cons.
    destruct (Bs4.find_from p x) as [z|] eqn:Ex.
    + intros [= <-]. now apply Hx.
    + exact IHr.
Qed.

Lemma find_forest_sound (p : node -> bool) (l : list node) (y : node) :
  Bs4.find_forest p l = Some y -> p y = true.
Proof.
  induction l as [|x r IH]; [discriminate|].
  rewrite find_forest_cons.
  destruct (Bs4.find_from p x) as [z|] eqn:Ex; [|exact IH].
  intros [= <-]. now apply find_from_sound with (n := x).
Qed.

(** X2: whatever [find_first_content_image] returns is an [img] element
    that carries a [src] attribute. *)
Theorem find_first_content_image_is_img (doc : soup) (tag : node) :
  find_first_content_image doc = Some tag ->
  is_img tag = true /\ exists src, Bs4.get tag "src" = Some src.
Proof.
  assert (Hsrc : forall t, is_img_with_src t = true ->
            is_img t = true /\ exists src, Bs4.get t "src" = Some src).
  { intros t [Hi Hs]%andb_prop. split; [exact Hi|].
    destruct (Bs4.get t "src") as [src|]; [eauto | discriminate]. }
  unfold find_first_content_image.
  destruct (Bs4.find_forest (has_typeof "mw:File/Thumb") doc) as [thumb|].
  - destruct (Bs4.find is_img_with_src thumb) as [i|] eqn:Ei.
    + intros [= <-]. apply Hsrc. now apply find_forest_sound in Ei.
    + destruct (Bs4.find_forest (has_typeof "mw:File") doc) as [file|].
      * destruct (Bs4.find is_img_with_src file) as [i|] eqn:Ef.
        -- intros [= <-]. apply Hsrc. now apply find_forest_sound in Ef.
        -- destruct (Bs4.find_forest is_file_element doc) as [i|] eqn:Ee;
             [|discriminate].
           destruct (src_truthy i) eqn:Et; [|discriminate]. intros [= <-].
           apply find_forest_sound in Ee. apply andb_prop in Ee as [Hi _].
           split; [exact Hi|]. unfold src_truthy in Et.
           destruct (Bs4.get i "src") as [src|]; [eauto | discriminate].
      * destruct (Bs4.find_forest is_file_element doc) as [i|] eqn:Ee;
          [|discriminate].
        destruct (src_truthy i) eqn:Et; [|discriminate]. intros [= <-].
        apply find_forest_sound in Ee. apply andb_prop in Ee as [Hi _].
        split; [exact Hi|]. unfold src_truthy in Et.
        destruct (Bs4.get i "src") as [src|]; [eauto | discriminate].
  - destruct (Bs4.find_forest (has_typeof "mw:File") doc) as [file|].
    + destruct (Bs4.find is_img_with_src file) as [i|] eqn:Ef.
      * intros [= <-]. apply Hsrc. now apply find_forest_sound in Ef.
      * destruct (Bs4.find_forest is_file_element doc) as [i|] eqn:Ee;
          [|discriminate].
        destruct (src_truthy i) eqn:Et; [|discriminate]. intros [= <-].
        apply find_forest_sound in Ee. apply andb_prop in Ee as [Hi _].
        split; [exact Hi|]. unfold src_truthy in Et.
        destruct (Bs4.get i "src") as [src|]; [eauto | discriminate].
    + destruct (Bs4.find_forest is_file_element doc) as [i|] eqn:Ee;
        [|discriminate].
      destruct (src_truthy i) eqn:Et; [|discriminate]. intros [= <-].
      apply find_forest_sound in Ee. apply andb_prop in Ee as [Hi _].
      split; [exact Hi|]. unfold src_truthy in Et.
      destruct (Bs4.get i "src") as [src|]; [eauto | discriminate].
Qed.

Lemma find_first_content_image_is_img_witness :
  is_img (img ["mw-file-element"] "//host/img.png") = true /\
  exists src, Bs4.get (img ["mw-file-element"] "//host/img.png") "src" = Some src.
Proof.
  apply (find_first_content_image_is_img doc_file_element). reflexivity.
Defined.

(** X3: the thread-pool worker tries the four rules in order (infobox,
    file thumbnail, file container, first article-file image) and settles
    on the first hit; it goes on with that image's reference when it is not
    empty and gives up otherwise, also when no rule hits. *)
Theorem thread_pool_locator_first_hit (doc : soup) :
  sync_locate doc =
  match first_hit spec_rules doc with
  | Some img => if src_truthy img then Some (normalize_src (src_of img)) else None
  | None => None
  end.
Proof. apply sync_locate_first_hit. Qed.

Lemma normalize_src_not_relative (src : string) :
  nonempty src = true ->
  nonempty (normalize_src src) = true /\ startswith (normalize_src src) "/" = false.
Proof.
  intros Hne. unfold normalize_src.
  destruct (startswith src "//") eqn:E2; [split; reflexivity|].
  destruct (startswith src "/") eqn:E1; [split; reflexivity|].
  now split.
Qed.

(** X4: a reference a worker goes on to fetch is never empty and never
    starts with a slash: protocol-relative and site-relative references
    have been made absolute. *)
Theorem located_reference_is_absolute (v : version) (doc : soup) (url : string) :
  located v doc = Some url ->
  nonempty url = true /\ startswith url "/" = false.
Proof.
  destruct v; unfold located.
  - unfold sync_locate, usable.
    destruct (sync_img_tag doc) as [i|]; [|discriminate]. cbn [negb].
    destruct (src_truthy i) eqn:Et; [|discriminate]. cbn [negb from_option].
    intros [= <-]. apply normalize_src_not_relative.
    unfold src_truthy in Et. unfold src_of.
    now destruct (Bs4.get i "src").
  - unfold extract_image_url, usable.
    destruct (match Bs4.find_forest is_infobox doc with
              | Some t => Bs4.find is_img t
              | None => Bs4.find_forest is_file_element doc
              end) as [i|]; [|discriminate].
    destruct (src_truthy i) eqn:Et; [|discriminate]. cbn [from_option].
    destruct (normalize_src (src_of i)) as [|c r] eqn:En; [discriminate|].
    intros [= <-]. rewrite <- En. apply normalize_src_not_relative.
    unfold src_truthy in Et. unfold src_of.
    now destruct (Bs4.get i "src").
Qed.

Lemma located_reference_is_absolute_witness :
  nonempty "https://upload.wikimedia.org/fox.jpg" = true /\
  startswith "https://upload.wikimedia.org/fox.jpg" "/" = false.
Proof.
  apply (located_reference_is_absolute ThreadPool doc_thumb_only). reflexivity.
Defined.

(** X5: normalizing a reference twice is normalizing it once. *)
Theorem normalize_src_idempotent (src : string) :
  normalize_src (normalize_src src) = normalize_src src.
Proof.
  unfold normalize_src.
  destruct (startswith src "//") eqn:E2.
  - change (startswith ("https:" +:+ src) "//") with false.
    now change (startswith ("https:" +:+ src) "/") with false.
  - destruct (startswith src "/") eqn:E1.
    + change (startswith ("https://en.wikipedia.org" +:+ src) "//") with false.
      now change (startswith ("https://en.wikipedia.org" +:+ src) "/") with false.
    + now rewrite E2, E1.
Qed.

(** X6: on a page whose infobox shows a usable first image the two
    versions locate the same reference, the normalized [src] of that
    image. *)
Theorem locators_agree_on_infobox (doc : soup) (tag : node) :
  rule_infobox doc = Some tag ->
  sync_locate doc = Some (normalize_src (src_of tag)) /\
  extract_image_url doc = Some (normalize_src (src_of tag)).
Proof.
  intros H. split.
  - rewrite sync_locate_first_hit. cbn [first_hit spec_rules]. rewrite H.
    unfold rule_infobox in H.
    destruct (Bs4.find_forest is_infobox doc) as [t|]; [|discriminate].
    destruct (Bs4.find is_img t) as [i|]; [|discriminate].
    destruct (src_truthy i) eqn:Et; [|discriminate].
    injection H as <-. now rewrite Et.
  - rewrite extract_image_url_rules. unfold rule_infobox in *.
    destruct (Bs4.find_forest is_infobox doc) as [t|]; [|discriminate].
    now rewrite H.
Qed.

Lemma locators_agree_on_infobox_witness :
  sync_locate doc_infobox
    = Some (normalize_src (src_of (img [] "//upload.wikimedia.org/fake_image.jpg"))) /\
  extract_image_url doc_infobox
    = Some (normalize_src (src_of (img [] "//upload.wikimedia.org/fake_image.jpg"))).
Proof.
  apply (locators_agree_on_infobox doc_infobox). reflexivity.
Defined.

(** ** Invariants of the workers *)

Lemma worker_none_name (v : version) (w : world) (image_dir : string)
    (e : entry) (dir : list string) :
  has_url e = true -> entry_name e = PyNone ->
  run_worker (worker v w image_dir) e dir
  = (mkState e dir [], Raise AttributeError).
Proof.
  unfold has_url, entry_name. intros Hu Hn.
  destruct (dict_get "wiki_url" e) as [|[|c r]] eqn:E; try discriminate.
  destruct v; unfold run_worker, worker, download_image_from_entry,
    process_entry, bind, get_entry; simpl; rewrite E, Hn; reflexivity.
Qed.

(** The four ways a worker can go. *)
Lemma worker_cases (P : state * res unit -> Prop) (v : version) (w : world)
    (image_dir : string) (e : entry) (dir : list string) :
  (has_url e = false ->
   P (mkState e dir
        [Log (match v with ThreadPool => ERROR | Asyncio => WARNING end)
           (NoWikiUrl (entry_name e))], Ok tt)) ->
  (has_url e = true -> entry_name e = PyNone ->
   P (mkState e dir [], Raise AttributeError)) ->
  (forall u n f rest,
      dict_get "wiki_url" e = PyStr u -> nonempty u = true ->
      entry_name e = PyStr n -> probe dir n = f :: rest ->
      P (mkState (<["local_image" := PyStr (PyPath.join image_dir f)]> e) dir
           [Log INFO (AlreadyExists n f)], Ok tt)) ->
  (forall u n,
      dict_get "wiki_url" e = PyStr u -> nonempty u = true ->
      entry_name e = PyStr n -> probe dir n = [] ->
      P (after_miss v w image_dir n u (mkState e dir []))) ->
  P (run_worker (worker v w image_dir) e dir).
Proof.
  intros Hguard Hnone Hhit Hmiss. destruct (has_url e) eqn:Hu.
  - assert (Hu' := Hu). unfold has_url in Hu'.
    destruct (dict_get "wiki_url" e) as [|u] eqn:E; [discriminate|].
    destruct (entry_name e) as [|n] eqn:En.
    + rewrite worker_none_name by assumption. now apply Hnone.
    + rewrite (worker_probe v w image_dir e dir u n E Hu' En).
      destruct (probe dir n) as [|f rest] eqn:Ep; [now apply (Hmiss u n)|].
      now apply (Hhit u n f rest).
  - rewrite worker_guard by assumption. now apply Hguard.
Qed.

Lemma in_dir_add (f g : string) (dir : list string) :
  List.In g dir -> List.In g (dir_add f dir).
Proof.
  intros H. unfold dir_add. destruct (existsb _ dir); [exact H|].
  apply List.in_or_app. now left.
Qed.

Lemma in_dir_add_new (f : string) (dir : list string) :
  List.In f (dir_add f dir).
Proof.
  unfold dir_add. destruct (existsb (String.eqb f) dir) eqn:E.
  - apply List.existsb_exists in E as (g & Hg & Heq).
    apply String.eqb_eq in Heq. now subst g.
  - apply List.in_or_app. right. now left.
Qed.

Lemma in_dir_after_others (w : world) (g : string) (dir : list string) :
  List.In g dir -> List.In g (dir_after_others w dir).
Proof.
  unfold dir_after_others. revert dir.
  induction (racing_files w) as [|f r IH]; intros dir H; [exact H|].
  cbn [fold_left]. apply IH. now apply in_dir_add.
Qed.

Lemma app_cancel_l (s t t' : string) : s +:+ t = s +:+ t' -> t = t'.
Proof.
  induction s as [|c s IH]; [trivial|].
  rewrite !app_cons. intros [= H]. now apply IH.
Qed.

Lemma join_injective (d f g : string) :
  startswith f "/" = false -> startswith g "/" = false ->
  PyPath.join d f = PyPath.join d g -> f = g.
Proof.
  intros Hf Hg. unfold PyPath.join. rewrite Hf, Hg.
  destruct (negb (nonempty d) || PyPath.endswith_char "/" d); intros H.
  - now apply app_cancel_l in H.
  - apply app_cancel_l in H. now apply app_cancel_l in H.
Qed.


(** What [os.path.exists] finds where a file name should be: the cache
    directory itself, or a listed name with the same path. *)
Lemma exists_in_cases (d : string) (dir : list string) (n img_url : string) :
  exists_in d dir (PyPath.join d (sanitize_filename n img_url)) = true ->
  sanitize_filename n img_url = "."
  \/ exists g, List.In g dir /\
       PyPath.join d g = PyPath.join d (sanitize_filename n img_url).
Proof.
  unfold exists_in. cbn [existsb]. intros H.
  destruct (filename_prefix_no_slash n img_url) as [_ Hno].
  apply startswith_no_slash in Hno.
  apply orb_prop in H as [H|H]; [|apply orb_prop in H as [H|H]].
  - left. apply String.eqb_eq in H. symmetry.
    now apply join_injective in H.
  - exfalso. apply String.eqb_eq in H. apply join_injective in H;
      [|reflexivity | exact Hno].
    symmetry in H. now apply filename_not_dotdot in H.
  - right. apply List.existsb_exists in H as (g & Hg & Heq).
    apply String.eqb_eq in Heq. eauto.
Qed.

(** X7: the exceptions that leave a worker.  An entry with a source URL
    and the name [None] makes both workers raise the [AttributeError] of
    [name.lower()], before any network call and with the entry and the
    cache directory untouched.  The thread-pool worker lets nothing else
    out.  The asyncio worker lets the [ValueError] of [urlparse] out when
    the reference it has located is one [urlparse] rejects: it stops
    after the page fetch, the entry untouched. *)
Theorem exceptions_leaving_a_worker (w : world) (image_dir : string)
    (e : entry) (dir : list string) :
  (has_url e = true -> entry_name e = PyNone ->
   forall v, run_worker (worker v w image_dir) e dir
             = (mkState e dir [], Raise AttributeError)) /\
  (forall x,
     snd (run_worker (worker ThreadPool w image_dir) e dir) = Raise x ->
     x = AttributeError /\ has_url e = true /\ entry_name e = PyNone) /\
  (forall u n html img_url,
     dict_get "wiki_url" e = PyStr u -> nonempty u = true ->
     entry_name e = PyStr n -> probe dir n = [] ->
     page_of Asyncio w u = Some html ->
     located Asyncio (parse_html w html) = Some img_url ->
     urlparse_raises w img_url = true ->
     run_worker (worker Asyncio w image_dir) e dir
     = (mkState e (dir_after_others w dir) [Get u],
        Raise (ValueError img_url))).
Proof.
  split; [|split].
  - intros Hu Hn v. now apply worker_none_name.
  - apply worker_cases with
      (P := fun out => forall x, snd out = Raise x ->
              x = AttributeError /\ has_url e = true /\ entry_name e = PyNone).
    + intros _ x [=].
    + intros Hu Hn x [= <-]. now repeat split.
    + intros u n f rest _ _ _ _ x [=].
    + intros u n _ _ _ _ x.
      rewrite thread_pool_after_miss_returns. intros [=].
  - intros u n html img_url Hu Hne Hn Hmiss Hpage Hloc Hparse.
    rewrite (worker_probe Asyncio w image_dir e dir u n Hu Hne Hn), Hmiss.
    unfold page_of in Hpage. unfold located in Hloc. unfold_miss.
    destruct (http_get w u) as [|r]; [discriminate|]. simpl.
    destruct (status r =? 200)%Z; [|discriminate]. simpl in *.
    destruct (text r) as [|c t]; [discriminate|]. simpl in *.
    injection Hpage as <-.
    destruct (extract_image_url _) as [[|c' i]|]; try discriminate.
    injection Hloc as <-. simpl. now rewrite Hparse.
Qed.

Lemma exceptions_leaving_a_worker_witness :
  run_worker (worker Asyncio (world_showing bracket_src) "tmp") fake_entry []
  = (mkState fake_entry (dir_after_others (world_showing bracket_src) [])
       [Get fake_url],
     Raise (ValueError ("https:" +:+ bracket_src))).
Proof.
  apply (proj2 (proj2 (exceptions_leaving_a_worker (world_showing bracket_src)
                         "tmp" fake_entry []))
           fake_url "Fake Animal" (html_with_src bracket_src)
           ("https:" +:+ bracket_src));
    vm_compute; reflexivity.
Defined.

(** X8: a worker changes nothing of an entry but [local_image].  When it
    sets [local_image], the value is the path of a name that is in the
    cache directory when the worker is done, or, in the asyncio version
    only, the path of ["."]: the second look of that version takes the
    cache directory itself for the destination when the file name it has
    built is ["."]. *)
Theorem worker_sets_only_local_image (v : version) (w : world)
    (image_dir : string) (e : entry) (dir : list string) :
  st_entry (fst (run_worker (worker v w image_dir) e dir)) = e
  \/ exists f,
       (List.In f (st_dir (fst (run_worker (worker v w image_dir) e dir)))
        \/ v = Asyncio /\ f = ".") /\
       st_entry (fst (run_worker (worker v w image_dir) e dir))
       = <["local_image" := PyStr (PyPath.join image_dir f)]> e.
Proof.
  apply worker_cases with
    (P := fun out => st_entry (fst out) = e
          \/ exists f, (List.In f (st_dir (fst out)) \/ v = Asyncio /\ f = ".") /\
               st_entry (fst out)
               = <["local_image" := PyStr (PyPath.join image_dir f)]> e).
  - now left.
  - now left.
  - intros u n f rest _ _ _ Hp. right. exists f. split; [left|reflexivity].
    cbn [fst st_dir]. unfold probe in Hp.
    assert (Hin : List.In f (List.filter (fun f => startswith f (safe_name n)) dir))
      by (rewrite Hp; now left).
    now apply List.filter_In in Hin.
  - intros u n _ _ _ _. destruct v.
    + walk_thread_pool; try (now left).
      right. eexists. split; [left; apply in_dir_add_new | reflexivity].
    + walk_asyncio; try (now left).
      * right. apply exists_in_cases in Hthere as [Hdot | (g & Hg & Heq)].
        -- exists ".". split; [now right|]. now rewrite Hdot.
        -- exists g. split; [now left|]. now rewrite Heq.
      * right. eexists. split; [left; apply in_dir_add_new | reflexivity].
Qed.

(** The asyncio worker on an entity named ["???"] whose picture has a
    path ending in a dot, in an empty cache directory: the file name is
    ["."], [os.path.exists] finds the directory, and the entry is given
    the directory for its image, nothing having been stored.  The
    thread-pool worker fails to open the directory for writing. *)
Example directory_taken_for_image :
  run_worker (process_entry (world_showing dot_src) "tmp") odd_entry []
  = (mkState (<["local_image" := PyStr "tmp/."]> odd_entry) []
       [Get fake_url; Log INFO (CachedPostScrape "???")], Ok tt) /\
  run_worker (download_image_from_entry (world_showing dot_src) "tmp")
    odd_entry []
  = (mkState odd_entry []
       [Get fake_url;
        Log INFO (Downloading "???" ("https:" +:+ dot_src));
        Get ("https:" +:+ dot_src);
        Log ERROR (ErrorDownloading "???" (IsADirectoryError "."))], Ok tt).
Proof. split; vm_compute; reflexivity. Qed.

Lemma network_calls_count (tr : list event) :
  network_calls tr = length (List.filter is_get tr).
Proof.
  unfold network_calls. induction tr as [|ev tr IH]; [reflexivity|].
  rewrite filter_cons. cbn [List.filter].
  destruct (is_get ev) eqn:E.
  - rewrite decide_True by reflexivity. cbn [length]. now rewrite IH.
  - rewrite decide_False by discriminate. exact IH.
Qed.

(** X9: a worker makes at most two network calls, and the first one, if
    there is one, fetches the source page of the entry. *)
Theorem worker_makes_at_most_two_calls (v : version) (w : world)
    (image_dir : string) (e : entry) (dir : list string) :
  network_calls (st_trace (fst (run_worker (worker v w image_dir) e dir))) <= 2
  /\ (head (List.filter is_get
              (st_trace (fst (run_worker (worker v w image_dir) e dir)))) = None
      \/ exists u,
           dict_get "wiki_url" e = PyStr u /\
           head (List.filter is_get
                   (st_trace (fst (run_worker (worker v w image_dir) e dir))))
           = Some (Get u)).
Proof.
  apply worker_cases with
    (P := fun out =>
            network_calls (st_trace (fst out)) <= 2
            /\ (head (List.filter is_get (st_trace (fst out))) = None
                \/ exists u, dict_get "wiki_url" e = PyStr u /\
                     head (List.filter is_get (st_trace (fst out)))
                     = Some (Get u))).
  - intros _. split; [rewrite network_calls_count; cbn; lia | now left].
  - intros _ _. split; [rewrite network_calls_count; cbn; lia | now left].
  - intros u n f rest _ _ _ _. split; [rewrite network_calls_count; cbn; lia | now left].
  - intros u n Hu _ _ _. destruct v.
    + walk_thread_pool;
        (split; [rewrite network_calls_count; cbn; lia
                | right; exists u; split; [exact Hu | reflexivity]]).
    + walk_asyncio;
        (split; [rewrite network_calls_count; cbn; lia
                | right; exists u; split; [exact Hu | reflexivity]]).
Qed.

(** X10: a worker never removes a file from the cache directory. *)
Theorem worker_keeps_cached_files (v : version) (w : world)
    (image_dir : string) (e : entry) (dir : list string) (f : string) :
  List.In f dir ->
  List.In f (st_dir (fst (run_worker (worker v w image_dir) e dir))).
Proof.
  intros Hin.
  apply worker_cases with (P := fun out => List.In f (st_dir (fst out)));
    try (intros; exact Hin).
  intros u n _ _ _ _. destruct v.
  - walk_thread_pool;
      first [exact Hin | now apply in_dir_after_others
            | now apply in_dir_add, in_dir_after_others].
  - walk_asyncio;
      first [exact Hin | now apply in_dir_after_others
            | now apply in_dir_add, in_dir_after_others].
Qed.

Lemma worker_keeps_cached_files_witness :
  List.In "zebra.png"
    (st_dir (fst (run_worker (worker ThreadPool broken_image_world "tmp")
                    fake_entry ["zebra.png"]))).
Proof.
  apply (worker_keeps_cached_files ThreadPool broken_image_world "tmp"
           fake_entry ["zebra.png"] "zebra.png").
  simpl. left. reflexivity.
Defined.

(** ** The cache across runs *)

Lemma basenames_in (l : list string) (f : string) :
  basenames l = true -> List.In f l -> PyPath.contains_char "/" f = false.
Proof.
  unfold basenames. rewrite List.forallb_forall. intros H Hin.
  apply H in Hin. now apply negb_true_iff in Hin.
Qed.

Lemma basenames_dir_add (f : string) (dir : list string) :
  PyPath.contains_char "/" f = false -> basenames dir = true ->
  basenames (dir_add f dir) = true.
Proof.
  intros Hf Hd. unfold dir_add. destruct (existsb _ dir); [exact Hd|].
  unfold basenames in *. rewrite List.forallb_app, Hd. cbn. now rewrite Hf.
Qed.

Lemma basenames_after_others (w : world) (dir : list string) :
  basenames dir = true -> basenames (racing_files w) = true ->
  basenames (dir_after_others w dir) = true.
Proof.
  unfold dir_after_others. revert dir.
  induction (racing_files w) as [|f r IH]; intros dir Hd Hr; [exact Hd|].
  cbn [fold_left]. cbn [basenames forallb] in Hr.
  apply andb_prop in Hr as [Hf Hr]. apply negb_true_iff in Hf.
  apply IH; [now apply basenames_dir_add | exact Hr].
Qed.

(** What is found where the destination should be is the destination, or
    the cache directory when the file name is ["."]. *)
Lemma exists_in_filename (image_dir : string) (dir : list string)
    (n img_url : string) :
  basenames dir = true ->
  exists_in image_dir dir (PyPath.join image_dir (sanitize_filename n img_url)) = true ->
  sanitize_filename n img_url = "."
  \/ List.In (sanitize_filename n img_url) dir.
Proof.
  intros Hd H. apply exists_in_cases in H as [H | (g & Hg & Heq)];
    [now left | right].
  destruct (filename_prefix_no_slash n img_url) as [_ Hno].
  apply join_injective in Heq.
  - now subst g.
  - apply startswith_no_slash. now apply basenames_in with (l := dir).
  - now apply startswith_no_slash.
Qed.

Lemma filename_dot_no_prefix (n img_url : string) :
  sanitize_filename n img_url = "." -> safe_name n = "".
Proof. intros H. now apply filename_dot in H. Qed.

Lemma probe_head (dir : list string) (n f : string) (rest : list string) :
  probe dir n = f :: rest ->
  List.In f dir /\ startswith f (safe_name n) = true.
Proof.
  intros Hp. unfold probe in Hp.
  assert (Hin : List.In f (List.filter (fun f => startswith f (safe_name n)) dir))
    by (rewrite Hp; now left).
  now apply List.filter_In in Hin.
Qed.

Lemma probe_finds (dir : list string) (n g : string) :
  List.In g dir -> startswith g (safe_name n) = true ->
  exists f rest, probe dir n = f :: rest.
Proof.
  intros Hin Hg. unfold probe.
  destruct (List.filter _ dir) as [|f rest] eqn:E; [|eauto].
  assert (H : List.In g (List.filter (fun f => startswith f (safe_name n)) dir))
    by (apply List.filter_In; now split).
  rewrite E in H. destruct H.
Qed.


Lemma dict_get_insert_other (k k' : string) (v : pyval) (e : entry) :
  k <> k' -> dict_get k' (<[k := v]> e) = dict_get k' e.
Proof. intros H. unfold dict_get. now rewrite lookup_insert_ne. Qed.

Lemma entry_name_annotated (v : pyval) (e : entry) :
  entry_name (<["local_image" := v]> e) = entry_name e.
Proof.
  unfold entry_name, dict_get_default. now rewrite lookup_insert_ne.
Qed.

(** A run on an entry that differs from [e] at most in [local_image], in
    a directory holding a file with the prefix: a cache hit. *)
Lemma annotated_entry_hits (v : version) (w : world) (image_dir : string)
    (e e1 : entry) (dir : list string) (u n g : string) :
  dict_get "wiki_url" e = PyStr u -> nonempty u = true ->
  entry_name e = PyStr n ->
  (e1 = e \/ exists p, e1 = <["local_image" := PyStr p]> e) ->
  List.In g dir -> startswith g (safe_name n) = true ->
  exists f rest,
    probe dir n = f :: rest /\
    run_worker (worker v w image_dir) e1 dir
    = (mkState (<["local_image" := PyStr (PyPath.join image_dir f)]> e1) dir
         [Log INFO (AlreadyExists n f)], Ok tt).
Proof.
  intros Hu Hne Hn He1 Hin Hg.
  destruct (probe_finds dir n g Hin Hg) as (f & rest & Hp).
  exists f, rest. split; [exact Hp|].
  assert (Hu1 : dict_get "wiki_url" e1 = PyStr u).
  { destruct He1 as [-> | (p & ->)]; [exact Hu|].
    now rewrite dict_get_insert_other. }
  assert (Hn1 : entry_name e1 = PyStr n).
  { destruct He1 as [-> | (p & ->)]; [exact Hn|].
    now rewrite entry_name_annotated. }
  now rewrite (worker_probe v w image_dir e1 dir u n Hu1 Hne Hn1), Hp.
Qed.

(** A worker that reports success after a cache miss has annotated the
    entry and leaves a file with the prefix of the entity in the cache
    directory, provided the prefix is not empty. *)
Lemma after_miss_success (v : version) (w : world)
    (image_dir n u : string) (e : entry) (dir : list string) :
  nonempty (safe_name n) = true ->
  basenames dir = true -> basenames (racing_files w) = true ->
  existsb reports_success
    (st_trace (fst (after_miss v w image_dir n u (mkState e dir [])))) = true ->
  (exists p, st_entry (fst (after_miss v w image_dir n u (mkState e dir [])))
             = <["local_image" := PyStr p]> e) /\
  exists g,
    List.In g (st_dir (fst (after_miss v w image_dir n u (mkState e dir []))))
    /\ startswith g (safe_name n) = true.
Proof.
  intros Hsafe Hdir Hrace.
  assert (Hd : basenames (dir_after_others w dir) = true)
    by now apply basenames_after_others.
  destruct v.
  - walk_thread_pool; intros Hs; try discriminate.
    split; [eauto|]. eexists. split; [apply in_dir_add_new|].
    apply filename_prefix_no_slash.
  - walk_asyncio; intros Hs; try discriminate.
    + split; [eauto|].
      apply exists_in_filename in Hthere as [Hdot | Hin]; [| |exact Hd].
      * apply filename_dot_no_prefix in Hdot. rewrite Hdot in Hsafe.
        discriminate.
      * eexists. split; [exact Hin|]. apply filename_prefix_no_slash.
    + split; [eauto|]. eexists. split; [apply in_dir_add_new|].
      apply filename_prefix_no_slash.
Qed.

(** X11: once a worker has reported success for an entity whose
    sanitized prefix is not empty (cache hit, download, or destination
    found on the second look), a second run on what the first left
    behind makes no network call, whatever the network does then: it
    finds a file with the prefix of the entity and sets [local_image] to
    it. *)
Theorem second_run_is_cached (v : version) (w w' : world) (image_dir : string)
    (e : entry) (dir : list string) (u n : string) :
  dict_get "wiki_url" e = PyStr u -> nonempty u = true ->
  entry_name e = PyStr n ->
  nonempty (safe_name n) = true ->
  basenames dir = true -> basenames (racing_files w) = true ->
  existsb reports_success
    (st_trace (fst (run_worker (worker v w image_dir) e dir))) = true ->
  let first := fst (run_worker (worker v w image_dir) e dir) in
  let second := run_worker (worker v w' image_dir) (st_entry first) (st_dir first) in
  snd second = Ok tt /\
  network_calls (st_trace (fst second)) = 0 /\
  exists f,
    List.In f (st_dir first) /\ startswith f (safe_name n) = true /\
    st_entry (fst second) !! "local_image"
    = Some (PyStr (PyPath.join image_dir f)).
Proof.
  intros Hu Hne Hn Hsafe Hdir Hrace Hok first second.
  assert (Hfirst : (st_entry first = e
                    \/ exists p, st_entry first = <["local_image" := PyStr p]> e)
                   /\ exists g, List.In g (st_dir first)
                                /\ startswith g (safe_name n) = true).
  { subst first. revert Hok.
    rewrite (worker_probe v w image_dir e dir u n Hu Hne Hn).
    destruct (probe dir n) as [|f rest] eqn:Hp.
    - intros Hok.
      destruct (after_miss_success v w image_dir n u e dir Hsafe Hdir Hrace Hok)
        as [Hent Hg].
      split; [now right | exact Hg].
    - intros _. cbn [fst st_entry st_dir]. split; [right; eauto|].
      exists f. now apply probe_head with (rest := rest). }
  destruct Hfirst as [Hent (g & Hg & Hpre)].
  destruct (annotated_entry_hits v w' image_dir e (st_entry first)
              (st_dir first) u n g Hu Hne Hn Hent Hg Hpre)
    as (f & rest & Hp & Hrun).
  subst second. rewrite Hrun. cbn [fst snd st_entry st_trace].
  repeat split. exists f.
  destruct (probe_head _ _ _ _ Hp) as [Hin Hf].
  repeat split; [exact Hin | exact Hf |].
  now rewrite lookup_insert_eq.
Qed.

Lemma second_run_is_cached_witness :
  let first := fst (run_worker (worker ThreadPool (fake_world []) "tmp")
                      fake_entry ["zebra.png"]) in
  let second := run_worker (worker ThreadPool offline "tmp")
                  (st_entry first) (st_dir first) in
  snd second = Ok tt /\
  network_calls (st_trace (fst second)) = 0 /\
  exists f,
    List.In f (st_dir first) /\ startswith f (safe_name "Fake Animal") = true /\
    st_entry (fst second) !! "local_image"
    = Some (PyStr (PyPath.join "tmp" f)).
Proof.
  apply (second_run_is_cached ThreadPool (fake_world []) offline "tmp"
           fake_entry ["zebra.png"] fake_url "Fake Animal");
    vm_compute; reflexivity.
Defined.



(** X13: when no other worker writes to the cache directory, the second
    look of the asyncio worker finds nothing a worker has stored: a run
    ends on "Cached (post-scrape)" only for an entity whose sanitized
    prefix is empty, in an empty cache directory, the file name built
    being ["."]; what [os.path.exists] finds is the cache directory
    itself, and that is what [local_image] is set to. *)
Theorem post_scrape_cache_needs_a_race (w : world) (image_dir : string)
    (e : entry) (dir : list string) (name : string) :
  basenames dir = true -> racing_files w = [] ->
  List.In (Log INFO (CachedPostScrape name))
    (st_trace (fst (run_worker (process_entry w image_dir) e dir))) ->
  entry_name e = PyStr name /\ safe_name name = "" /\ dir = [] /\
  st_entry (fst (run_worker (process_entry w image_dir) e dir))
  = <["local_image" := PyStr (PyPath.join image_dir ".")]> e.
Proof.
  intros Hdir Hrace.
  change (process_entry w image_dir) with (worker Asyncio w image_dir).
  assert (Hsame : dir_after_others w dir = dir)
    by (unfold dir_after_others; now rewrite Hrace).
  apply worker_cases with
    (P := fun out =>
            List.In (Log INFO (CachedPostScrape name)) (st_trace (fst out)) ->
            entry_name e = PyStr name /\ safe_name name = "" /\ dir = [] /\
            st_entry (fst out)
            = <["local_image" := PyStr (PyPath.join image_dir ".")]> e).
  - intros _ [H|[]]. discriminate.
  - intros _ _ [].
  - intros u n f rest _ _ _ _ [H|[]]. discriminate.
  - intros u n _ _ Hn Hp. walk_asyncio;
      try (cbn [List.In]; intuition discriminate).
    intros [H|[H|[]]]; [discriminate|]. injection H as <-.
    rewrite Hsame in Hthere.
    apply exists_in_filename in Hthere as [Hdot | Hin]; [| |exact Hdir].
    + pose proof (filename_dot_no_prefix _ _ Hdot) as Hsafe.
      repeat split; [exact Hn | exact Hsafe | | now rewrite Hdot].
      destruct dir as [|f rest]; [reflexivity|].
      unfold probe in Hp. rewrite Hsafe in Hp.
      rewrite filter_all_true in Hp by apply startswith_empty. discriminate.
    + exfalso.
      destruct (filename_prefix_no_slash n (String c' img_url)) as [Hpre _].
      destruct (probe_finds dir n _ Hin Hpre) as (f & rest & Hf). congruence.
Qed.

Lemma post_scrape_cache_needs_a_race_witness :
  entry_name odd_entry = PyStr "???" /\ safe_name "???" = "" /\
  @nil string = [] /\
  st_entry (fst (run_worker (process_entry (world_showing dot_src) "tmp")
                   odd_entry []))
  = <["local_image" := PyStr (PyPath.join "tmp" ".")]> odd_entry.
Proof.
  apply (post_scrape_cache_needs_a_race (world_showing dot_src) "tmp" odd_entry
           [] "???"); [reflexivity | reflexivity |].
  vm_compute. right. left. reflexivity.
Defined.

(** ** The budget of the batch *)

Open Scope list_scope.

Lemma count_if_done (f : phase -> bool) (l : list phase) :
  f Done = false -> forallb is_done l = true -> count_if f l = 0.
Proof.
  intros Hf. induction l as [|p l IH]; [reflexivity|].
  cbn [forallb count_if]. intros [Hp Hl]%andb_prop.
  destruct p; try discriminate. now rewrite Hf, IH.
Qed.

Lemma run_batch_balanced (v : version) (limit n : nat)
    (schedule : list action) (s : pool) :
  run_batch v schedule limit n = Some s ->
  balanced (holds_of v) limit n s.
Proof.
  intros Hrun.
  apply run_balanced with (moves := moves_of v) (schedule := schedule)
    (s := init v limit n).
  - now destruct v; intros [].
  - apply init_balanced.
  - exact Hrun.
Qed.

(** X14: when the batch call returns, the whole budget is free again:
    every unit taken by a worker has been given back, on whatever path
    the worker ended. *)
Theorem budget_free_on_return (v : version) (limit n : nat)
    (schedule : list action) (s : pool) :
  run_batch v schedule limit n = Some s ->
  returned s = true ->
  permits s = limit.
Proof.
  intros Hrun Hret.
  destruct (run_batch_balanced v limit n schedule s Hrun) as (Hsum & _ & Hdone).
  rewrite count_if_done in Hsum; [lia | now destruct v | now apply Hdone].
Qed.

Lemma budget_free_on_return_witness :
  permits (mkPool 1 [Done; Done] true) = 1.
Proof.
  apply (budget_free_on_return Asyncio 1 2
           (full_run Asyncio 0 ++ [Move 1 Done; Return])); reflexivity.
Defined.

Lemma batch_can_complete_witness :
  run_batch ThreadPool (one_by_one ThreadPool 3) 2 3
  = Some (mkPool 2 (replicate 3 Done) true).
Proof. apply (batch_can_complete ThreadPool 2 3). lia. Defined.

Lemma step_keeps_waiting (n : nat) (s s' : pool) (a : action) (i : nat) :
  balanced async_holds 0 n s -> tasks s !! i = Some Waiting ->
  step async_moves async_holds s a = Some s' ->
  tasks s' !! i = Some Waiting.
Proof.
  intros (Hsum & _ & Hret) Hi Hstep. destruct a as [j next|]; simpl in Hstep.
  - destruct (tasks s !! j) as [p|] eqn:Hj; [|discriminate].
    destruct (async_moves p next) eqn:Hm; [|discriminate].
    destruct (decide (j = i)) as [->|Hne].
    + rewrite Hi in Hj. injection Hj as <-.
      destruct next; try discriminate. simpl in Hstep.
      destruct (permits s); [discriminate | lia].
    + destruct (negb (async_holds p) && async_holds next);
        [destruct (permits s); [discriminate|]|
         destruct (async_holds p && negb (async_holds next))];
        injection Hstep as <-; cbn [tasks];
        now rewrite list_lookup_insert_ne.
  - destruct (forallb is_done (tasks s)) eqn:Hall; [|discriminate].
    pose proof (forallb_lookup _ _ _ Hall Hi). discriminate.
Qed.

(** X15: with a budget of zero the asyncio batch hangs as soon as one
    worker misses the cache: that worker waits for the semaphore for
    ever, no fetch ever starts, and the batch call never returns. *)
Theorem zero_budget_never_returns (n : nat) (before after : list action)
    (s s' : pool) (i : nat) :
  run_batch Asyncio before 0 n = Some s ->
  tasks s !! i = Some Waiting ->
  run async_moves async_holds after s = Some s' ->
  tasks s' !! i = Some Waiting /\ in_flight s' = 0 /\ returned s' = false.
Proof.
  intros Hrun Hi Hafter.
  pose proof (run_batch_balanced Asyncio 0 n before s Hrun) as Hb.
  cbn [holds_of] in Hb.
  assert (H : balanced async_holds 0 n s' /\ tasks s' !! i = Some Waiting).
  { clear Hrun. revert s Hb Hi Hafter.
    induction after as [|a rest IH]; intros s Hb Hi Hafter; simpl in Hafter.
    - injection Hafter as <-. now split.
    - destruct (step async_moves async_holds s a) as [s1|] eqn:E; [|discriminate].
      apply (IH s1); [|eapply step_keeps_waiting; eassumption | exact Hafter].
      eapply step_balanced; try eassumption; now intros []. }
  destruct H as [Hb' Hi']. split; [exact Hi'|]. split.
  - pose proof (balanced_in_flight async_holds) as Hle.
    specialize (Hle (fun p H => ltac:(now destruct p)) 0 n s' Hb'). lia.
  - destruct Hb' as (_ & _ & Hret).
    destruct (returned s') eqn:R; [|reflexivity].
    pose proof (forallb_lookup _ _ _ (Hret eq_refl) Hi'). discriminate.
Qed.

Lemma zero_budget_never_returns_witness :
  tasks (mkPool 0 [Done; Waiting] false) !! 1 = Some Waiting /\
  in_flight (mkPool 0 [Done; Waiting] false) = 0 /\
  returned (mkPool 0 [Done; Waiting] false) = false.
Proof.
  apply (zero_budget_never_returns 2 [Move 1 Waiting] [Move 0 Done]
           (mkPool 0 [Started; Waiting] false) _ 1); reflexivity.
Defined.

Open Scope string_scope.

(** ** The table scraper *)

(** The test [test_parse_cell_text_basic]. *)
Example parse_cell_text_basic :
  snd (Scraper.parse_cell_text sample_cell) = ["Mammalian"; "Reptilian"; "Avian"].
Proof. reflexivity. Qed.

(** The test [test_get_collateral_adjectives_map_parsing]. *)
Example adjectives_map_parsing :
  Scraper.adjectives_map_of (NElem "[document]" [] [] animals_page)
  = Scraper.Success
      [ ("feline", [Scraper.new_entry "Cat" (PyStr "https://en.wikipedia.org/wiki/Cat")]) ;
        ("canine", [Scraper.new_entry "Dog" (PyStr "https://en.wikipedia.org/wiki/Dog")]) ].
Proof. vm_compute. reflexivity. Qed.

Lemma split_char_parts (sep : ascii) (s p : string) :
  List.In p (Scraper.split_char sep s) -> PyPath.contains_char sep p = false.
Proof.
  revert p. induction s as [|x r IH]; intros p.
  - intros [<-|[]]. reflexivity.
  - cbn [Scraper.split_char]. destruct (Ascii.eqb x sep) eqn:E.
    + intros [<-|H]; [reflexivity | now apply IH].
    + destruct (Scraper.split_char sep r) as [|q qs].
      * intros [<-|[]]. cbn [PyPath.contains_char]. now rewrite E.
      * intros [<-|H].
        -- cbn [PyPath.contains_char]. rewrite E. apply IH. now left.
        -- apply IH. now right.
Qed.

Lemma lstrip_contains (c : ascii) (s : string) :
  PyPath.contains_char c s = false -> PyPath.contains_char c (lstrip s) = false.
Proof.
  induction s as [|x r IH]; [trivial|]. cbn [lstrip].
  destruct (is_space x); [|trivial].
  cbn [PyPath.contains_char]. intros [_ H]%orb_false_elim. now apply IH.
Qed.

Lemma rstrip_contains (c : ascii) (s : string) :
  PyPath.contains_char c s = false -> PyPath.contains_char c (rstrip s) = false.
Proof.
  induction s as [|x r IH]; [trivial|].
  cbn [PyPath.contains_char rstrip]. intros [Hx Hr]%orb_false_elim.
  specialize (IH Hr). destruct (rstrip r) as [|y t].
  - destruct (is_space x); [reflexivity|].
    cbn [PyPath.contains_char]. now rewrite Hx.
  - cbn [PyPath.contains_char] in *. now rewrite Hx.
Qed.

Lemma rstrip_idempotent (s : string) : rstrip (rstrip s) = rstrip s.
Proof.
  induction s as [|x r IH]; [reflexivity|]. cbn [rstrip].
  destruct (rstrip r) as [|y t] eqn:E.
  - destruct (is_space x) eqn:Ex; [reflexivity|]. cbn [rstrip]. now rewrite Ex.
  - cbn [rstrip] in *. now rewrite IH.
Qed.

Lemma lstrip_head (s : string) :
  lstrip s = "" \/ exists x r, lstrip s = String x r /\ is_space x = false.
Proof.
  induction s as [|x r IH]; [now left|]. cbn [lstrip].
  destruct (is_space x) eqn:E; [exact IH|]. right. eauto.
Qed.

Lemma rstrip_head (x : ascii) (r : string) :
  is_space x = false -> exists t, rstrip (String x r) = String x t.
Proof.
  intros Hx. cbn [rstrip]. destruct (rstrip r) as [|y t]; [|eauto].
  rewrite Hx. eauto.
Qed.

Lemma strip_idempotent (s : string) : strip (strip s) = strip s.
Proof.
  unfold strip. destruct (lstrip_head s) as [-> | (x & r & -> & Hx)];
    [reflexivity|].
  destruct (rstrip_head x r Hx) as [t Ht].
  rewrite Ht, lstrip_solid by exact Hx. rewrite <- Ht. apply rstrip_idempotent.
Qed.

Lemma lstrip_lower (s : string) : lstrip (lower s) = lower (lstrip s).
Proof.
  induction s as [|x r IH]; [reflexivity|].
  unfold lower in *. cbn [str_map lstrip]. rewrite is_space_lower.
  destruct (is_space x); [exact IH | reflexivity].
Qed.

Lemma rstrip_lower (s : string) : rstrip (lower s) = lower (rstrip s).
Proof.
  induction s as [|x r IH]; [reflexivity|].
  unfold lower in *. cbn [str_map rstrip]. rewrite IH, is_space_lower.
  destruct (rstrip r); cbn [str_map]; [now destruct (is_space x) | reflexivity].
Qed.

Lemma strip_lower (s : string) : strip (lower s) = lower (strip s).
Proof. unfold strip. now rewrite lstrip_lower, rstrip_lower. Qed.

Lemma lower_idempotent (s : string) : lower (lower s) = lower s.
Proof.
  unfold lower. induction s as [|x r IH]; [reflexivity|].
  cbn [str_map]. now rewrite char_lower_idem, IH.
Qed.

Lemma char_lower_comma (c : ascii) :
  Ascii.eqb (char_lower c) "," = Ascii.eqb c ",".
Proof. by_cases_on_char c. Qed.

Lemma lower_contains_comma (s : string) :
  PyPath.contains_char "," (lower s) = PyPath.contains_char "," s.
Proof.
  unfold lower. induction s as [|x r IH]; [reflexivity|].
  cbn [str_map PyPath.contains_char]. now rewrite char_lower_comma, IH.
Qed.

Lemma comma_parts_spec (s p : string) :
  List.In p (Scraper.comma_parts s) ->
  nonempty p = true /\ strip p = p /\ PyPath.contains_char "," p = false.
Proof.
  unfold Scraper.comma_parts. intros [Hin Hne]%List.filter_In.
  apply List.in_map_iff in Hin as (q & <- & Hq).
  split; [exact Hne|]. split; [apply strip_idempotent|].
  unfold strip. apply rstrip_contains, lstrip_contains.
  now apply split_char_parts in Hq.
Qed.

Lemma cell_parts_spec (contents : list node) (p : string) :
  List.In p (Scraper.cell_parts contents) ->
  nonempty p = true /\ strip p = p /\ PyPath.contains_char "," p = false.
Proof.
  unfold Scraper.cell_parts.
  intros Hin. apply List.in_flat_map in Hin as (element & _ & Hin).
  destruct element as [s|t cl a ch].
  - now apply comma_parts_spec in Hin.
  - destruct (String.eqb t "br"); [destruct Hin|].
    now apply comma_parts_spec in Hin.
Qed.

(** X16: every string [parse_cell_text] returns is non-empty, has no
    leading or trailing whitespace and holds no comma. *)
Theorem parse_cell_text_parts (cell : node) (p : string) :
  List.In p (snd (Scraper.parse_cell_text cell)) ->
  nonempty p = true /\ strip p = p /\ PyPath.contains_char "," p = false.
Proof. unfold Scraper.parse_cell_text. cbn [snd]. apply cell_parts_spec. Qed.

Lemma parse_cell_text_parts_witness :
  nonempty "Reptilian" = true /\ strip "Reptilian" = "Reptilian" /\
  PyPath.contains_char "," "Reptilian" = false.
Proof.
  apply (parse_cell_text_parts sample_cell "Reptilian").
  simpl. right. left. reflexivity.
Defined.

Lemma without_sup_children (t : string) (cl : list string)
    (a : list (string * string)) (ch : list node) :
  Scraper.without_sup (NElem t cl a ch)
  = NElem t cl a
      (map (fun x => if Bs4.name_is "sup" x then NText "" else Scraper.without_sup x)
         ch).
Proof.
  reflexivity.
Qed.

Lemma without_sup_name (t : string) (n : node) :
  Bs4.name_is t (Scraper.without_sup n) = Bs4.name_is t n.
Proof. now destruct n. Qed.

Lemma without_sup_idempotent (n : node) :
  Scraper.without_sup (Scraper.without_sup n) = Scraper.without_sup n.
Proof.
  induction n as [s|t cl a ch IH] using node_nested_ind; [reflexivity|].
  rewrite !without_sup_children. f_equal. rewrite List.map_map.
  induction IH as [|x r Hx _ IHr]; [reflexivity|]. cbn [map]. rewrite IHr.
  f_equal. destruct (Bs4.name_is "sup" x) eqn:E; [reflexivity|].
  now rewrite without_sup_name, E, Hx.
Qed.

Lemma descendants_without_sup (n : node) :
  List.Forall (fun py => Bs4.name_is "sup" (snd py) = false)
    (Scraper.descendants (Scraper.without_sup n)).
Proof.
  induction n as [s|t cl a ch IH] using node_nested_ind; [constructor|].
  rewrite without_sup_children. cbn [Scraper.descendants].
  generalize 0. induction IH as [|x r Hx _ IHr]; intros i; [constructor|].
  cbn [map]. constructor.
  - cbn [snd]. destruct (Bs4.name_is "sup" x) eqn:E; [reflexivity|].
    now rewrite without_sup_name.
  - apply List.Forall_app. split; [|apply IHr].
    apply List.Forall_map.
    destruct (Bs4.name_is "sup" x); [constructor|].
    revert Hx. apply List.Forall_impl. now intros [pth y].
Qed.

(** X17: [parse_cell_text] leaves the cell without any [sup] element, and
    calling it again on the cell it left gives the same list and the same
    cell. *)
Theorem parse_cell_text_drops_footnotes (cell : node) :
  Scraper.find_all (Bs4.name_is "sup") (fst (Scraper.parse_cell_text cell)) = []
  /\ Scraper.parse_cell_text (fst (Scraper.parse_cell_text cell))
     = Scraper.parse_cell_text cell.
Proof.
  split.
  - unfold Scraper.parse_cell_text, Scraper.find_all, Scraper.find_all_at.
    cbn [fst]. pose proof (descendants_without_sup cell) as H.
    induction H as [|[pth y] l Hy _ IH]; [reflexivity|].
    cbn [List.filter]. cbn [snd] in Hy. now rewrite Hy.
  - unfold Scraper.parse_cell_text. cbn [fst].
    now rewrite without_sup_idempotent.
Qed.

Lemma before_sub_unfold (sep s : string) :
  Scraper.before_sub sep s
  = if startswith s sep then ""
    else match s with
         | EmptyString => ""
         | String x r => String x (Scraper.before_sub sep r)
         end.
Proof. now destruct s. Qed.

Lemma before_sub_prefix (sep s : string) :
  exists t, s = Scraper.before_sub sep s +:+ t.
Proof.
  induction s as [|x r [t IH]]; rewrite before_sub_unfold.
  - exists "". now destruct (startswith "" sep).
  - destruct (startswith (String x r) sep); [now exists (String x r)|].
    exists t. now rewrite app_cons, <- IH.
Qed.

Lemma startswith_longer (p q t : string) :
  startswith p q = true -> startswith (p +:+ t) q = true.
Proof.
  revert p. induction q as [|a q IH]; intros p; [now destruct (p +:+ t)|].
  destruct p as [|b p]; [discriminate|].
  rewrite app_cons. cbn [startswith]. intros [Hab Hp]%andb_prop.
  now rewrite Hab, IH.
Qed.

Lemma str_in_unfold (sub s : string) :
  Bs4.str_in sub s
  = startswith s sub
    || match s with EmptyString => false | String _ r => Bs4.str_in sub r end.
Proof. now destruct s. Qed.

(** What precedes the first occurrence of a separator holds none. *)
Lemma before_sub_clean (a : ascii) (sep s : string) :
  Bs4.str_in (String a sep) (Scraper.before_sub (String a sep) s) = false.
Proof.
  induction s as [|x r IH]; rewrite before_sub_unfold.
  - now destruct (startswith "" (String a sep)).
  - destruct (startswith (String x r) (String a sep)) eqn:E; [reflexivity|].
    rewrite str_in_unfold, IH, orb_false_r.
    destruct (startswith (String x (Scraper.before_sub (String a sep) r))
                (String a sep)) eqn:E'; [|reflexivity].
    destruct (before_sub_prefix (String a sep) r) as [t Ht].
    apply startswith_longer with (t := t) in E'.
    rewrite app_cons, <- Ht in E'. congruence.
Qed.

Lemma adjective_key_lower (p : string) :
  nonempty p = true -> strip p = p -> PyPath.contains_char "," p = false ->
  adjective_key (lower p).
Proof.
  intros Hne Hs Hc. repeat split.
  - now destruct p.
  - now rewrite strip_lower, Hs.
  - apply lower_idempotent.
  - now rewrite lower_contains_comma.
Qed.

Lemma scraped_new_entry (link_tag : option node) (name_cell : node) :
  scraped_entry
    (Scraper.new_entry (Scraper.name_of link_tag name_cell)
       (Scraper.href_of link_tag)).
Proof.
  exists (Scraper.name_of link_tag name_cell), (Scraper.href_of link_tag).
  split; [reflexivity|]. split; [apply before_sub_clean|].
  destruct link_tag as [a|]; [right; eauto | now left].
Qed.

Lemma append_to_keys (adj : string) (e : entry) (m : mapping) :
  map fst (Scraper.append_to adj e m)
  = if existsb (String.eqb adj) (map fst m) then map fst m
    else (map fst m ++ [adj])%list.
Proof.
  induction m as [|[k l] r IH]; [reflexivity|].
  cbn [Scraper.append_to map fst existsb].
  rewrite (String.eqb_sym adj k).
  destruct (String.eqb k adj); [reflexivity|].
  cbn [map fst orb]. rewrite IH.
  now destruct (existsb (String.eqb adj) (map fst r)).
Qed.

Lemma append_to_scraped (adj : string) (e : entry) (m : mapping) :
  adjective_key adj -> scraped_entry e -> scraped_mapping m ->
  scraped_mapping (Scraper.append_to adj e m).
Proof.
  intros Hadj He [Hnd Hall]. split.
  - rewrite append_to_keys.
    destruct (existsb (String.eqb adj) (map fst m)) eqn:E; [exact Hnd|].
    apply List.NoDup_app; [exact Hnd | repeat constructor; intros [] |].
    intros k Hk [Heq|[]]. subst k.
    assert (existsb (String.eqb adj) (map fst m) = true); [|congruence].
    apply List.existsb_exists. exists adj.
    split; [exact Hk | apply String.eqb_refl].
  - clear Hnd. induction Hall as [|[k l] r (Hk & Hne & Hl) Hr IH].
    + cbn [Scraper.append_to]. constructor; [|constructor]. cbn [fst snd].
      split; [exact Hadj|]. split; [discriminate|].
      constructor; [exact He | constructor].
    + cbn [Scraper.append_to]. destruct (String.eqb k adj).
      * constructor; [|exact Hr]. cbn [fst snd] in *.
        split; [exact Hk|]. split; [now destruct l|].
        apply List.Forall_app. split; [exact Hl | now constructor].
      * constructor; [exact (conj Hk (conj Hne Hl)) | exact IH].
Qed.

Lemma scan_row_scraped (name_idx adjective_idx : nat) (pth : list nat)
    (tbl : node) (m : mapping) :
  scraped_mapping m ->
  scraped_mapping (snd (Scraper.scan_row name_idx adjective_idx pth tbl m)).
Proof.
  intros Hm. unfold Scraper.scan_row.
  destruct (Scraper.subtree pth tbl) as [row|]; [|exact Hm].
  destruct (_ <=? _)%nat; [exact Hm|].
  destruct (nth_error _ name_idx) as [[? name_cell]|]; [|exact Hm].
  destruct (nth_error _ adjective_idx) as [[adj_pth adj_cell]|]; [|exact Hm].
  unfold Scraper.parse_cell_text.
  pose proof (cell_parts_spec
                (Bs4.children (Scraper.without_sup adj_cell))) as Hparts.
  generalize dependent (Scraper.cell_parts
                          (Bs4.children (Scraper.without_sup adj_cell))).
  intros parts Hparts. cbn [snd]. revert m Hm.
  induction parts as [|p parts IH]; intros m Hm; [exact Hm|].
  cbn [map fold_left]. apply IH.
  - intros q Hq. apply Hparts. now right.
  - destruct (Hparts p (or_introl eq_refl)) as (Hne & Hs & Hc).
    apply append_to_scraped; [|apply scraped_new_entry | exact Hm].
    now apply adjective_key_lower.
Qed.

Lemma scan_rows_scraped (name_idx adjective_idx : nat) (rows : list (list nat))
    (tbl : node) (m : mapping) :
  scraped_mapping m ->
  scraped_mapping (Scraper.scan_rows name_idx adjective_idx rows tbl m).
Proof.
  revert tbl m. induction rows as [|pth rest IH]; intros tbl m Hm; [exact Hm|].
  cbn [Scraper.scan_rows].
  pose proof (scan_row_scraped name_idx adjective_idx pth tbl m Hm) as H.
  destruct (Scraper.scan_row name_idx adjective_idx pth tbl m) as [tbl' m'].
  now apply IH.
Qed.

Lemma adjectives_map_scraped (doc : node) (m : mapping) :
  Scraper.adjectives_map_of doc = Scraper.Success m -> scraped_mapping m.
Proof.
  unfold Scraper.adjectives_map_of.
  destruct (Scraper.find_all Scraper.is_wikitable doc) as [|t0 [|table rest]];
    try discriminate.
  destruct (Scraper.index_of "animal" _) as [name_idx|]; [|discriminate].
  destruct (Scraper.index_of "collateral adjective" _) as [adjective_idx|];
    [|discriminate].
  intros [= <-]. apply scan_rows_scraped. split; constructor.
Qed.

(** X18: in a mapping the scraper returns, the adjectives are pairwise
    distinct, non-empty, stripped, lower-case and free of commas; every
    adjective has at least one animal; every animal has a name (a string
    without [" ("]) and a source URL that is [None] or starts with
    [https://en.wikipedia.org]. *)
Theorem scraper_builds_well_formed_mapping (w : world) (m : mapping) :
  Scraper.get_collateral_adjectives_map w = Scraper.Success m ->
  scraped_mapping m.
Proof.
  unfold Scraper.get_collateral_adjectives_map.
  destruct (Scraper.fetch_html w) as [doc|]; [|discriminate].
  apply adjectives_map_scraped.
Qed.

Lemma scraper_builds_well_formed_mapping_witness :
  scraped_mapping
    [ ("feline", [Scraper.new_entry "Cat" (PyStr "https://en.wikipedia.org/wiki/Cat")]) ;
      ("canine", [Scraper.new_entry "Dog" (PyStr "https://en.wikipedia.org/wiki/Dog")]) ].
Proof.
  apply (scraper_builds_well_formed_mapping animals_world).
  vm_compute. reflexivity.
Defined.

Lemma index_of_in (x : string) (l : list string) :
  (exists i, Scraper.index_of x l = Some i) <-> List.In x l.
Proof.
  induction l as [|y r IH]; cbn [Scraper.index_of List.In].
  - split; [intros [i H]; discriminate | intros []].
  - destruct (String.eqb y x) eqn:E.
    + apply String.eqb_eq in E. split; [now left | eauto].
    + apply String.eqb_neq in E. split.
      * intros [i H]. right. apply IH.
        destruct (Scraper.index_of x r) as [j|]; [eauto | discriminate].
      * intros [H|H]; [contradiction|]. apply IH in H as [j Hj].
        rewrite Hj. cbn. eauto.
Qed.

(** X19: the scraper returns a mapping exactly when the page can be
    fetched without an HTTP error, holds at least two [wikitable] tables,
    and the header cells of the second read "animal" and "collateral
    adjective" once stripped and lower-cased; otherwise it raises. *)
Theorem scraper_succeeds_iff (w : world) :
  (exists m, Scraper.get_collateral_adjectives_map w = Scraper.Success m)
  <->
  exists r t0 table rest,
    http_get w Scraper.WIKI_URL = Reply r /\ bad_status r = false /\
    Scraper.find_all Scraper.is_wikitable
      (NElem "[document]" [] [] (parse_html w (text r))) = t0 :: table :: rest /\
    List.In "animal" (Scraper.headers_of table) /\
    List.In "collateral adjective" (Scraper.headers_of table).
Proof.
  unfold Scraper.get_collateral_adjectives_map, Scraper.fetch_html,
    Scraper.adjectives_map_of.
  destruct (http_get w Scraper.WIKI_URL) as [|r].
  { split; [intros [m H]; discriminate | intros (r & ? & ? & ? & H & _); discriminate]. }
  destruct (bad_status r) eqn:Hbad.
  { split; [intros [m H]; discriminate|].
    intros (r' & ? & ? & ? & [= <-] & H & _). congruence. }
  destruct (Scraper.find_all Scraper.is_wikitable _) as [|t0 [|table rest]] eqn:Ht.
  - split; [intros [m H]; discriminate|].
    intros (r' & ? & ? & ? & [= <-] & _ & H & _). congruence.
  - split; [intros [m H]; discriminate|].
    intros (r' & ? & ? & ? & [= <-] & _ & H & _). congruence.
  - split.
    + intros [m H]. exists r, t0, table, rest. repeat split; try assumption.
      * apply index_of_in.
        destruct (Scraper.index_of "animal" _) as [i|]; [eauto | discriminate].
      * apply index_of_in.
        destruct (Scraper.index_of "animal" _) as [i|]; [|discriminate].
        destruct (Scraper.index_of "collateral adjective" _) as [j|];
          [eauto | discriminate].
    + intros (r' & t0' & table' & rest' & [= <-] & _ & Heq & Ha & Hc).
      rewrite Ht in Heq. injection Heq as <- <- <-.
      apply index_of_in in Ha as [i ->]. apply index_of_in in Hc as [j ->].
      eauto.
Qed.

Lemma in_all_entries (m : mapping) (e : entry) :
  List.In e (all_entries m) ->
  exists k l, List.In (k, l) m /\ List.In e l.
Proof.
  unfold all_entries. intros H. apply List.in_concat in H as (l & Hl & He).
  apply List.in_map_iff in Hl as ([k l'] & <- & Hkl). eauto.
Qed.

(** With a name that is a string no worker fails at [name.lower()]. *)
Lemma worker_no_attribute_error (v : version) (w : world) (image_dir : string)
    (e : entry) (dir : list string) (n : string) :
  entry_name e = PyStr n ->
  snd (run_worker (worker v w image_dir) e dir) <> Raise AttributeError.
Proof.
  intros Hn. destruct v.
  - now rewrite (thread_pool_returns w image_dir e dir n Hn).
  - apply worker_cases with (P := fun out => snd out <> Raise AttributeError).
    + discriminate.
    + intros _ Hnone. congruence.
    + discriminate.
    + intros u n' _ _ _ _.
      destruct (asyncio_after_miss_outcome w image_dir n' u (mkState e dir []))
        as [-> | (img_url & _ & ->)]; discriminate.
Qed.

(** X20: the entries of a mapping the scraper returns are entries the
    workers can take.  The name of each is a string, so no worker fails
    at [name.lower()], and the thread-pool worker returns normally
    whatever the network, the page and the cache directory are.  A source
    URL of such an entry is the text [https://en.wikipedia.org] followed
    by the [href] of the link of its row, as the page gives it. *)
Theorem workers_take_scraped_entries (w w' : world)
    (image_dir : string) (dir : list string) (m : mapping) (e : entry) :
  Scraper.get_collateral_adjectives_map w = Scraper.Success m ->
  List.In e (all_entries m) ->
  (exists name, entry_name e = PyStr name) /\
  snd (run_worker (worker ThreadPool w' image_dir) e dir) = Ok tt /\
  (forall v, snd (run_worker (worker v w' image_dir) e dir)
             <> Raise AttributeError) /\
  (has_url e = false \/
   exists href, dict_get "wiki_url" e = PyStr ("https://en.wikipedia.org" +:+ href)).
Proof.
  intros Hm Hin. unfold Scraper.get_collateral_adjectives_map in Hm.
  destruct (Scraper.fetch_html w) as [doc|]; [|discriminate].
  apply adjectives_map_scraped in Hm as [_ Hall].
  apply in_all_entries in Hin as (k & l & Hkl & He).
  rewrite List.Forall_forall in Hall. destruct (Hall _ Hkl) as (_ & _ & Hl).
  rewrite List.Forall_forall in Hl. cbn [snd] in Hl.
  destruct (Hl _ He) as (name & href & -> & _ & Hhref).
  assert (Hn : entry_name (Scraper.new_entry name href) = PyStr name)
    by reflexivity.
  split; [eauto|]. split; [now apply thread_pool_returns with (n := name)|].
  split; [intros v; now apply worker_no_attribute_error with (n := name)|].
  destruct Hhref as [-> | (path & ->)]; [now left | right; eauto].
Qed.

Lemma workers_take_scraped_entries_witness :
  (exists name,
     entry_name (Scraper.new_entry "Cat" (PyStr "https://en.wikipedia.org/wiki/Cat"))
     = PyStr name) /\
  snd (run_worker (worker ThreadPool offline "tmp")
         (Scraper.new_entry "Cat" (PyStr "https://en.wikipedia.org/wiki/Cat")) [])
  = Ok tt /\
  (forall v,
     snd (run_worker (worker v offline "tmp")
            (Scraper.new_entry "Cat" (PyStr "https://en.wikipedia.org/wiki/Cat")) [])
     <> Raise AttributeError) /\
  (has_url (Scraper.new_entry "Cat" (PyStr "https://en.wikipedia.org/wiki/Cat"))
   = false \/
   exists href,
     dict_get "wiki_url"
       (Scraper.new_entry "Cat" (PyStr "https://en.wikipedia.org/wiki/Cat"))
     = PyStr ("https://en.wikipedia.org" +:+ href)).
Proof.
  apply (workers_take_scraped_entries animals_world offline "tmp" []
           [ ("feline", [Scraper.new_entry "Cat" (PyStr "https://en.wikipedia.org/wiki/Cat")]) ;
             ("canine", [Scraper.new_entry "Dog" (PyStr "https://en.wikipedia.org/wiki/Dog")]) ]).
  - vm_compute. reflexivity.
  - simpl. left. reflexivity.
Defined.

Lemma filter_id_iff {A} (p : A -> bool) (l : list A) :
  List.filter p l = l <-> List.Forall (fun x => p x = true) l.
Proof.
  induction l as [|x l IH]; cbn [List.filter].
  - split; [constructor | reflexivity].
  - destruct (p x) eqn:E; split.
    + intros [= H]. constructor; [exact E | now apply IH].
    + intros H. inversion H; subst. f_equal. now apply IH.
    + intros H. exfalso.
      assert (Hin : List.In x (List.filter p l)) by (rewrite H; now left).
      apply List.filter_In in Hin as [_ Hx]. congruence.
    + intros H. inversion H; subst. congruence.
Qed.

(** X21: the two versions hand the same entries to their workers, in the
    same order, exactly when every entry of the mapping carries a source
    URL. *)
Theorem versions_schedule_alike (m : mapping) :
  async_scheduled m = sync_scheduled m
  <-> List.Forall (fun e => has_url e = true) (all_entries m).
Proof. unfold async_scheduled, sync_scheduled. apply filter_id_iff. Qed.

(** ** More on the sanitized prefix *)

(** X22: over all code points, for a database with the properties
    [Wide.regular] lists, the names the transform leaves unchanged are
    exactly the strings made of settled characters only: characters the
    pattern keeps that [str.lower] leaves as they are. *)
Theorem wide_safe_name_fixed_points (U : Wide.ucd) (s : Wide.ustr) :
  Wide.regular U ->
  Wide.safe_name U s = s <-> List.Forall (Wide.settled U) s.
Proof.
  intros HU. split.
  - intros H. rewrite <- H. now apply wide_safe_name_settled.
  - now apply wide_safe_name_fixpoint.
Qed.

Lemma wide_safe_name_fixed_points_witness :
  Wide.safe_name Wide.sample (Wide.codes "red_fox-2" ++ [978%N])%list
  = (Wide.codes "red_fox-2" ++ [978%N])%list
  <-> List.Forall (Wide.settled Wide.sample)
        (Wide.codes "red_fox-2" ++ [978%N])%list.
Proof.
  apply (wide_safe_name_fixed_points Wide.sample
           (Wide.codes "red_fox-2" ++ [978%N])%list).
  exact sample_regular.
Defined.

(** On names over U+0000..U+00FF the settled characters are the
    lower-case alphanumerics, the underscore and the hyphen. *)
Lemma safe_name_fixed_points (s : string) :
  safe_name s = s <-> str_all permitted s = true.
Proof.
  split.
  - intros H. rewrite <- H. generalize (safe_name_settled s).
    apply str_all_impl. unfold settled. intros c [Hk Hf]%andb_prop.
    now apply lower_fixed_permitted.
  - intros H. apply safe_name_fixpoint. revert H. apply str_all_impl.
    intros c Hc. unfold settled.
    rewrite (permitted_keep c Hc), (permitted_lower_fixed c Hc).
    apply Ascii.eqb_refl.
Qed.

(** X23: the prefix does not see the case of a name nor the whitespace
    around it: names that differ only in these share their cache
    files. *)
Theorem safe_name_ignores_case_and_margins (n : string) :
  safe_name (lower n) = safe_name n /\ safe_name (strip n) = safe_name n.
Proof.
  unfold safe_name. split.
  - now rewrite lower_idempotent.
  - now rewrite <- strip_lower, strip_idempotent.
Qed.

(** X24: [append_to] is the dict update of the scraper: the list of the
    adjective gets the entry at its end (a new list when the adjective
    is new), and the list of every other adjective is what it was. *)
Theorem append_to_get (adj k : string) (e : entry) (m : mapping) :
  mapping_get k (Scraper.append_to adj e m)
  = if String.eqb adj k
    then Some (default [] (mapping_get adj m) ++ [e])%list
    else mapping_get k m.
Proof.
  induction m as [|[k' l] r IH].
  - cbn [Scraper.append_to mapping_get]. now destruct (String.eqb adj k).
  - cbn [Scraper.append_to]. destruct (String.eqb k' adj) eqn:E.
    + apply String.eqb_eq in E. subst k'.
      cbn [mapping_get]. rewrite String.eqb_refl. cbn [default].
      now destruct (String.eqb adj k).
    + cbn [mapping_get]. rewrite IH, E.
      destruct (String.eqb adj k) eqn:Ek; [|reflexivity].
      apply String.eqb_eq in Ek. subst k. now rewrite E.
Qed.
